(** * Token lifecycle of the Outlook MCP server (server.js)

    A shallow embedding of the credential handling of [server.js]:
    [loadTokenCache], [saveTokenCache], [getAccessToken] and the
    [outlook_auth] tool handler, together with the part of the JavaScript
    platform these four functions rely on (truthiness, property reads,
    [Date], [JSON.stringify], [JSON.parse], [await]). *)

From Stdlib Require Import ZArith List String Ascii Bool Lia DecimalString.
Import ListNotations.

Set Warnings "-register-all".

Local Open Scope string_scope.
Local Open Scope Z_scope.

(* ================================================================== *)
(** ** JavaScript values *)

Module JS.

(** The values a token cache can hold: what [JSON.parse] produces, plus
    [undefined] and [Date] objects, which the MSAL result carries.
    A number is kept as the decimal [m * 10^e] of its literal.  Strings are
    byte strings (the UTF-8 text of the JavaScript string). *)
Inductive value : Type :=
| VUndefined
| VNull
| VBool (b : bool)
| VNum (m e : Z)
| VStr (s : string)
| VDate (t : option Z)          (* time value in ms; [None] is Invalid Date *)
| VArr (l : list value)
| VObj (fields : list (string * value)).

(** [ToBoolean]. *)
Definition truthy (v : value) : bool :=
  match v with
  | VUndefined | VNull => false
  | VBool b => b
  | VNum m _ => negb (m =? 0)
  | VStr s => negb (String.eqb s EmptyString)
  | VDate _ | VArr _ | VObj _ => true
  end.

Fixpoint lookup (k : string) (fields : list (string * value)) : option value :=
  match fields with
  | [] => None
  | (k', v) :: rest => if String.eqb k k' then Some v else lookup k rest
  end.

(** The property [k] of an object with the given fields; a missing property
    reads as [undefined]. *)
Definition field (fields : list (string * value)) (k : string) : value :=
  match lookup k fields with
  | Some x => x
  | None => VUndefined
  end.

(** [v.k] for the property names the server reads ([accessToken],
    [refreshToken], [expiresOn]).  [None] is the TypeError raised when [v]
    is [null] or [undefined]; a missing property reads as [undefined]. *)
Definition get_prop (v : value) (k : string) : option value :=
  match v with
  | VUndefined | VNull => None
  | VObj fields => Some (field fields k)
  | _ => Some VUndefined
  end.

(** Defining property [k] on an object under construction: an existing key
    keeps its position and takes the new value, a new key goes last. *)
Fixpoint set_prop (k : string) (v : value) (fields : list (string * value))
  : list (string * value) :=
  match fields with
  | [] => [(k, v)]
  | (k', v') :: rest =>
      if String.eqb k k' then (k', v) :: rest else (k', v') :: set_prop k v rest
  end.

(** [a || b] on already evaluated operands. *)
Definition or_else (a b : value) : value := if truthy a then a else b.

End JS.

(* ================================================================== *)
(** ** Dates: time values and the ISO format of [toISOString] *)

Module DateTime.

Definition msPerDay : Z := 86400000.
Definition maxTime : Z := 8640000000000000.

(** [TimeClip]: a time value outside +-8.64e15 ms is NaN. *)
Definition time_clip (t : Z) : option Z :=
  if (Z.abs t <=? maxTime) then Some t else None.

(** Days since 1970-01-01 of a proleptic Gregorian date. *)
Definition days_from_civil (y m d : Z) : Z :=
  let y' := if m <=? 2 then y - 1 else y in
  let era := y' / 400 in
  let yoe := y' - era * 400 in
  let mp := if m <=? 2 then m + 9 else m - 3 in
  let doy := (153 * mp + 2) / 5 + d - 1 in
  let doe := yoe * 365 + yoe / 4 - yoe / 100 + doy in
  era * 146097 + doe - 719468.

(** The date (year, month, day) of a day number. *)
Definition civil_from_days (z : Z) : Z * Z * Z :=
  let z' := z + 719468 in
  let era := z' / 146097 in
  let doe := z' - era * 146097 in
  let yoe := (doe - doe / 1460 + doe / 36524 - doe / 146096) / 365 in
  let doy := doe - (365 * yoe + yoe / 4 - yoe / 100) in
  let mp := (5 * doy + 2) / 153 in
  let d := doy - (153 * mp + 2) / 5 + 1 in
  let m := if mp <? 10 then mp + 3 else mp - 9 in
  let y := yoe + era * 400 in
  ((if m <=? 2 then y + 1 else y), m, d).

Definition digit_char (n : Z) : ascii := ascii_of_N (48 + Z.to_N n).

(** [k] decimal digits of [n], most significant first. *)
Fixpoint digits (k : nat) (n : Z) : string :=
  match k with
  | O => EmptyString
  | S k' => String (digit_char ((n / 10 ^ Z.of_nat k') mod 10)) (digits k' n)
  end.

Definition digit_val (c : ascii) : option Z :=
  let n := Z.of_N (N_of_ascii c) in
  if (48 <=? n) && (n <=? 57) then Some (n - 48) else None.

(** Reads exactly [k] decimal digits, accumulating onto [acc]. *)
Fixpoint read_digits (k : nat) (acc : Z) (s : string) : option (Z * string) :=
  match k with
  | O => Some (acc, s)
  | S k' =>
      match s with
      | String c rest =>
          match digit_val c with
          | Some d => read_digits k' (10 * acc + d) rest
          | None => None
          end
      | EmptyString => None
      end
  end.

Definition expect (c : ascii) (s : string) : option string :=
  match s with
  | String c' rest => if Ascii.eqb c c' then Some rest else None
  | EmptyString => None
  end.

Definition year_string (y : Z) : string :=
  if (0 <=? y) && (y <=? 9999) then digits 4 y
  else if y <? 0 then "-" ++ digits 6 (- y)
  else "+" ++ digits 6 y.

(** [Date.prototype.toISOString] of a valid time value:
    [YYYY-MM-DDTHH:mm:ss.sssZ], with a signed six-digit year outside
    0..9999. *)
Definition toISOString (t : Z) : string :=
  let day := t / msPerDay in
  let r := t mod msPerDay in
  let '(y, m, d) := civil_from_days day in
  year_string y ++ "-" ++ digits 2 m ++ "-" ++ digits 2 d ++ "T"
    ++ digits 2 (r / 3600000) ++ ":" ++ digits 2 ((r / 60000) mod 60) ++ ":"
    ++ digits 2 ((r / 1000) mod 60) ++ "." ++ digits 3 (r mod 1000) ++ "Z".

Definition read_year (s : string) : option (Z * string) :=
  match s with
  | String "+" rest => read_digits 6 0 rest
  | String "-" rest =>
      match read_digits 6 0 rest with
      | Some (y, rest') => if y =? 0 then None else Some (- y, rest')
      | None => None
      end
  | _ => read_digits 4 0 s
  end.

Definition valid_fields (mo d h mi sec ms : Z) : bool :=
  (1 <=? mo) && (mo <=? 12) && (1 <=? d) && (d <=? 31)
  && ((h <=? 23) || ((h =? 24) && (mi =? 0) && (sec =? 0) && (ms =? 0)))
  && (mi <=? 59) && (sec <=? 59).

(** [Date.parse] on the format [toISOString] emits.  [None] is NaN.  Field
    ranges are checked loosely: a day up to 31 in any month (the date then
    rolls over), hour 24 only as 24:00:00.000.  Strings in any other
    format, which engines parse in implementation-defined ways, are read as
    NaN here. *)
Definition Date_parse (s : string) : option Z :=
  match read_year s with
  | Some (y, s1) =>
    match expect "-" s1 with Some s2 =>
    match read_digits 2 0 s2 with Some (mo, s3) =>
    match expect "-" s3 with Some s4 =>
    match read_digits 2 0 s4 with Some (d, s5) =>
    match expect "T" s5 with Some s6 =>
    match read_digits 2 0 s6 with Some (h, s7) =>
    match expect ":" s7 with Some s8 =>
    match read_digits 2 0 s8 with Some (mi, s9) =>
    match expect ":" s9 with Some s10 =>
    match read_digits 2 0 s10 with Some (sec, s11) =>
    match expect "." s11 with Some s12 =>
    match read_digits 3 0 s12 with Some (ms, s13) =>
    match s13 with
    | "Z" =>
        if valid_fields mo d h mi sec ms
        then time_clip (days_from_civil y mo d * msPerDay
                        + h * 3600000 + mi * 60000 + sec * 1000 + ms)
        else None
    | _ => None
    end
    | None => None end | None => None end | None => None end
    | None => None end | None => None end | None => None end
    | None => None end | None => None end | None => None end
    | None => None end | None => None end | None => None end
  | None => None
  end.

(** The integer part of the number [m * 10^e]. *)
Definition num_trunc (m e : Z) : Z :=
  if 0 <=? e then m * 10 ^ e else Z.quot m (10 ^ (- e)).

(** The time value of [new Date(v)]; [None] is NaN (Invalid Date).  Arrays
    and plain objects are converted through their string form by the
    engine; that form is not a timestamp in the format read here, so they
    are taken as Invalid Date. *)
Definition time_value (v : JS.value) : option Z :=
  match v with
  | JS.VUndefined => None
  | JS.VNull => Some 0
  | JS.VBool b => Some (if b then 1 else 0)
  | JS.VNum m e => time_clip (num_trunc m e)
  | JS.VStr s => Date_parse s
  | JS.VDate t => t
  | JS.VArr _ | JS.VObj _ => None
  end.

(** [new Date(v) > new Date()] with the clock reading [now]: a comparison
    with NaN is false. *)
Definition date_after (v : JS.value) (now : Z) : bool :=
  match time_value v with
  | Some t => now <? t
  | None => false
  end.

End DateTime.

(* ================================================================== *)
(** ** JSON text: [JSON.stringify (v, null, 2)] and [JSON.parse] *)

Module JSON.
Import JS.

Definition nl : string := String "010" EmptyString.
Definition dquote : ascii := "034".
Definition backslash : ascii := "\".

Definition byte (n : N) : ascii := ascii_of_N n.

Definition hex_char (n : N) : ascii :=
  if (n <? 10)%N then byte (48 + n) else byte (87 + n).

(** [QuoteJSONString] on one byte: the quote, the backslash and the
    control characters are escaped, everything else is copied. *)
Definition escape_char (c : ascii) : string :=
  let n := N_of_ascii c in
  if Ascii.eqb c dquote then String backslash (String dquote EmptyString)
  else if Ascii.eqb c backslash then String backslash (String backslash EmptyString)
  else if (n =? 8)%N then String backslash "b"
  else if (n =? 9)%N then String backslash "t"
  else if (n =? 10)%N then String backslash "n"
  else if (n =? 12)%N then String backslash "f"
  else if (n =? 13)%N then String backslash "r"
  else if (n <? 32)%N then
    String backslash
      (String "u" (String "0" (String "0"
        (String (hex_char (n / 16)) (String (hex_char (n mod 16)) EmptyString)))))
  else String c EmptyString.

Fixpoint escape (s : string) : string :=
  match s with
  | EmptyString => EmptyString
  | String c rest => escape_char c ++ escape rest
  end.

Definition quote (s : string) : string :=
  String dquote (escape s ++ String dquote EmptyString).

Fixpoint join (sep : string) (parts : list string) : string :=
  match parts with
  | [] => EmptyString
  | [p] => p
  | p :: rest => p ++ sep ++ join sep rest
  end.

Definition Z_text (z : Z) : string := NilZero.string_of_int (Z.to_int z).

(** A number is written as its decimal literal (the engine would print the
    shortest form of the double; no token is a number). *)
Definition number_text (m e : Z) : string :=
  if e =? 0 then Z_text m else Z_text m ++ "e" ++ Z_text e.

Definition bracket (open close ind : string) (parts : list string) : string :=
  match parts with
  | [] => open ++ close
  | _ => open ++ nl ++ (ind ++ "  ")
         ++ join ("," ++ nl ++ (ind ++ "  ")) parts ++ nl ++ ind ++ close
  end.

(** [SerializeJSONProperty] with a gap of two spaces at indentation [ind].
    [None] is the [undefined] result: such a property is left out of an
    object and written as [null] in an array.  A [Date] is written through
    its [toJSON]: the ISO string, or [null] for an Invalid Date. *)
Fixpoint serialize (ind : string) (v : value) : option string :=
  match v with
  | VUndefined => None
  | VNull => Some "null"
  | VBool b => Some (if b then "true" else "false")
  | VNum m e => Some (number_text m e)
  | VStr s => Some (quote s)
  | VDate (Some t) => Some (quote (DateTime.toISOString t))
  | VDate None => Some "null"
  | VArr l =>
      Some (bracket "[" "]" ind
              (map (fun x => match serialize (ind ++ "  ") x with
                             | Some t => t
                             | None => "null"
                             end) l))
  | VObj fields =>
      Some (bracket "{" "}" ind
              ((fix members (fs : list (string * value)) : list string :=
                  match fs with
                  | [] => []
                  | (k, x) :: rest =>
                      match serialize (ind ++ "  ") x with
                      | Some t => (quote k ++ ": " ++ t) :: members rest
                      | None => members rest
                      end
                  end) fields))
  end.

Definition JSON_stringify (v : value) : option string := serialize EmptyString v.

(** *** Parsing *)

Definition is_ws (c : ascii) : bool :=
  let n := N_of_ascii c in
  ((n =? 32) || (n =? 9) || (n =? 10) || (n =? 13))%N.

Fixpoint skip_ws (s : string) : string :=
  match s with
  | String c rest => if is_ws c then skip_ws rest else s
  | EmptyString => s
  end.

Definition hex_val (c : ascii) : option N :=
  let n := N_of_ascii c in
  if ((48 <=? n) && (n <=? 57))%N then Some (n - 48)%N
  else if ((97 <=? n) && (n <=? 102))%N then Some (n - 87)%N
  else if ((65 <=? n) && (n <=? 70))%N then Some (n - 55)%N
  else None.

Definition hex4 (a b c d : ascii) : option N :=
  match hex_val a, hex_val b, hex_val c, hex_val d with
  | Some x, Some y, Some z, Some w => Some (((x * 16 + y) * 16 + z) * 16 + w)%N
  | _, _, _, _ => None
  end.

(** The UTF-8 bytes of a code point. *)
Definition utf8 (cp : N) : string :=
  (if cp <? 128 then String (byte cp) EmptyString
   else if cp <? 2048 then
     String (byte (192 + cp / 64)) (String (byte (128 + cp mod 64)) EmptyString)
   else if cp <? 65536 then
     String (byte (224 + cp / 4096))
       (String (byte (128 + (cp / 64) mod 64))
          (String (byte (128 + cp mod 64)) EmptyString))
   else
     String (byte (240 + cp / 262144))
       (String (byte (128 + (cp / 4096) mod 64))
          (String (byte (128 + (cp / 64) mod 64))
             (String (byte (128 + cp mod 64)) EmptyString))))%N.

Definition is_high_surrogate (cp : N) : bool := ((55296 <=? cp) && (cp <=? 56319))%N.
Definition is_low_surrogate (cp : N) : bool := ((56320 <=? cp) && (cp <=? 57343))%N.

Definition simple_escape (c : ascii) : option ascii :=
  match c with
  | "034"%char => Some dquote
  | "\"%char => Some backslash
  | "/"%char => Some "/"%char
  | "b"%char => Some (byte 8)
  | "f"%char => Some (byte 12)
  | "n"%char => Some (byte 10)
  | "r"%char => Some (byte 13)
  | "t"%char => Some (byte 9)
  | _ => None
  end.

(** The characters of a string literal after its opening quote, up to and
    including the closing quote. *)
Fixpoint parse_string_body (s : string) : option (string * string) :=
  match s with
  | EmptyString => None
  | String c rest =>
      if Ascii.eqb c dquote then Some (EmptyString, rest)
      else if Ascii.eqb c backslash then
        match rest with
        | String "u" (String h1 (String h2 (String h3 (String h4 rest1)))) =>
            match hex4 h1 h2 h3 h4 with
            | None => None
            | Some hi =>
                if is_high_surrogate hi then
                  match rest1 with
                  | String "\" (String "u"
                      (String l1 (String l2 (String l3 (String l4 rest2))))) =>
                      match hex4 l1 l2 l3 l4 with
                      | Some lo =>
                          if is_low_surrogate lo then
                            match parse_string_body rest2 with
                            | Some (body, out) =>
                                Some (utf8 (65536 + (hi - 55296) * 1024 + (lo - 56320))%N
                                        ++ body, out)
                            | None => None
                            end
                          else
                            match parse_string_body rest1 with
                            | Some (body, out) => Some (utf8 hi ++ body, out)
                            | None => None
                            end
                      | None => None
                      end
                  | _ =>
                      match parse_string_body rest1 with
                      | Some (body, out) => Some (utf8 hi ++ body, out)
                      | None => None
                      end
                  end
                else
                  match parse_string_body rest1 with
                  | Some (body, out) => Some (utf8 hi ++ body, out)
                  | None => None
                  end
            end
        | String e rest1 =>
            match simple_escape e with
            | Some b =>
                match parse_string_body rest1 with
                | Some (body, out) => Some (String b body, out)
                | None => None
                end
            | None => None
            end
        | EmptyString => None
        end
      else if (N_of_ascii c <? 32)%N then None
      else
        match parse_string_body rest with
        | Some (body, out) => Some (String c body, out)
        | None => None
        end
  end.

(** The longest prefix of decimal digits: its value, its length, the rest. *)
Fixpoint span_digits (acc : Z) (len : Z) (s : string) : Z * Z * string :=
  match s with
  | String c rest =>
      match DateTime.digit_val c with
      | Some d => span_digits (10 * acc + d) (len + 1) rest
      | None => (acc, len, s)
      end
  | EmptyString => (acc, len, s)
  end.

Definition starts_with_zero (s : string) : bool :=
  match s with String "0" _ => true | _ => false end.

Definition parse_exponent (s : string) : option (Z * string) :=
  match s with
  | String c rest =>
      if Ascii.eqb c "e" || Ascii.eqb c "E" then
        let '(sign, rest1) :=
          match rest with
          | String "+" r => (1, r)
          | String "-" r => (-1, r)
          | _ => (1, rest)
          end in
        let '(x, len, rest2) := span_digits 0 0 rest1 in
        if len =? 0 then None else Some (sign * x, rest2)
      else Some (0, s)
  | EmptyString => Some (0, s)
  end.

(** A JSON number: an optional minus sign, an integer part without a
    leading zero (unless it is the single digit 0), an optional fraction of
    at least one digit, an optional exponent of at least one digit. *)
Definition parse_number (s : string) : option (value * string) :=
  let '(sign, s1) := match s with String "-" r => (-1, r) | _ => (1, s) end in
  let '(ip, ilen, s2) := span_digits 0 0 s1 in
  if (ilen =? 0) || ((1 <? ilen) && starts_with_zero s1) then None
  else
    match
      match s2 with
      | String "." r =>
          let '(m, flen, s3) := span_digits ip 0 r in
          if flen =? 0 then None else Some (m, flen, s3)
      | _ => Some (ip, 0, s2)
      end
    with
    | Some (m, flen, s3) =>
        match parse_exponent s3 with
        | Some (x, s4) => Some (VNum (sign * m) (x - flen), s4)
        | None => None
        end
    | None => None
    end.

(** A JSON value, after optional white space.  The fuel bounds the number
    of nested calls; running out of it reads as a syntax error. *)
Fixpoint parse_value (fuel : nat) (s : string) : option (value * string) :=
  match fuel with
  | O => None
  | S fuel' =>
      match skip_ws s with
      | String "{" rest =>
          match skip_ws rest with
          | String "}" out => Some (VObj [], out)
          | _ => parse_members fuel' [] rest
          end
      | String "[" rest =>
          match skip_ws rest with
          | String "]" out => Some (VArr [], out)
          | _ => parse_elements fuel' [] rest
          end
      | String "034" rest =>
          match parse_string_body rest with
          | Some (str, out) => Some (VStr str, out)
          | None => None
          end
      | String "t" (String "r" (String "u" (String "e" out))) => Some (VBool true, out)
      | String "f" (String "a" (String "l" (String "s" (String "e" out)))) =>
          Some (VBool false, out)
      | String "n" (String "u" (String "l" (String "l" out))) => Some (VNull, out)
      | s' => parse_number s'
      end
  end

with parse_members (fuel : nat) (acc : list (string * value)) (s : string)
  : option (value * string) :=
  match fuel with
  | O => None
  | S fuel' =>
      match skip_ws s with
      | String "034" rest =>
          match parse_string_body rest with
          | Some (k, rest1) =>
              match skip_ws rest1 with
              | String ":" rest2 =>
                  match parse_value fuel' rest2 with
                  | Some (v, rest3) =>
                      match skip_ws rest3 with
                      | String "," rest4 => parse_members fuel' (set_prop k v acc) rest4
                      | String "}" out => Some (VObj (set_prop k v acc), out)
                      | _ => None
                      end
                  | None => None
                  end
              | _ => None
              end
          | None => None
          end
      | _ => None
      end
  end

with parse_elements (fuel : nat) (acc : list value) (s : string)
  : option (value * string) :=
  match fuel with
  | O => None
  | S fuel' =>
      match parse_value fuel' s with
      | Some (v, rest) =>
          match skip_ws rest with
          | String "," rest1 => parse_elements fuel' (acc ++ [v]) rest1
          | String "]" out => Some (VArr (acc ++ [v]), out)
          | _ => None
          end
      | None => None
      end
  end.

(** [JSON.parse]: one value, then only white space.  [None] is the
    SyntaxError.  Two units of fuel are supplied per character. *)
Definition JSON_parse (s : string) : option value :=
  match parse_value (2 * String.length s + 2) s with
  | Some (v, rest) =>
      match skip_ws rest with
      | EmptyString => Some v
      | _ => None
      end
  | None => None
  end.

(** *** The message of the SyntaxError

    The exception [JSON.parse] raises carries a message that the engine
    composes from the text.  The definitions below are V8's as shipped
    with Node 20 and later, for a text that ends before any value begins
    and for a text whose first character after white space begins no JSON
    value; [None] is any other text, whose message is not modelled.  In
    the second case the message names the character and quotes the text:
    all of it when it is shorter than 21 characters, else, when the
    character stands before the tenth place, what comes before it and the
    ten characters from it on. *)

(** A printable ASCII character that begins no JSON value and is no JSON
    punctuation. *)
Definition starts_no_value (c : ascii) : bool :=
  let n := N_of_ascii c in
  ((33 <=? n) && (n <=? 126))%N
  && negb (existsb (Ascii.eqb c)
             (dquote :: list_ascii_of_string "{}[]:,-0123456789tfn")).

(** The texts V8 reports without naming a character. *)
Definition special_source (source : string) : bool :=
  existsb (String.eqb source) ["undefined"; "NaN"; "Infinity"; "[object Object]"].

(** A text of ASCII characters only: its length in bytes is its length in
    UTF-16 units. *)
Definition plain (source : string) : bool :=
  forallb (fun c => (N_of_ascii c <? 128)%N) (list_ascii_of_string source).

Definition syntax_error_message (source : string) : option string :=
  let pos := (String.length source - String.length (skip_ws source))%nat in
  match skip_ws source with
  | EmptyString => Some "Unexpected end of JSON input"
  | String c _ =>
      if starts_no_value c && plain source && negb (special_source source) then
        if (String.length source <? 21)%nat then
          Some ("Unexpected token '" ++ String c "', "
                ++ String dquote source ++ String dquote " is not valid JSON")
        else if (pos <? 10)%nat then
          Some ("Unexpected token '" ++ String c "', "
                ++ String dquote (substring 0 (pos + 10) source)
                ++ String dquote "... is not valid JSON")
        else None
      else None
  end.

(** *** The text of an object whose members are all strings *)

(** One member, [key: value] with both quoted. *)
Definition member_text (kv : string * string) : string :=
  quote (fst kv) ++ ": " ++ quote (snd kv).

(** What separates two members at the top level. *)
Definition separator : string := "," ++ nl ++ "  ".

(** The parser defining one more string member. *)
Definition add_member (acc : list (string * value)) (kv : string * string)
  : list (string * value) :=
  set_prop (fst kv) (VStr (snd kv)) acc.

End JSON.

(* ================================================================== *)
(** ** server.js: the token cache and its users *)

Module Server.
Import JS DateTime JSON.

(** How an MSAL call can be rejected. *)
Inductive msal_error : Type :=
| InvalidGrant
| NetworkError
| ProviderError (detail : string).

(** Exceptions: those the platform raises, the rejection of an MSAL
    promise, and [new Error (message)].  A SyntaxError is the one
    [JSON.parse] raises on [source]; its message is composed by the engine
    from that text ([syntax_error_message]). *)
Inductive exn : Type :=
| SyntaxError (source : string)
| IOError
| TypeError
| MsalError (e : msal_error)
| Error (message : string).

(** How the promise of a token exchange ([acquireTokenByRefreshToken],
    [acquireTokenByCode]) settles. *)
Inductive response : Type :=
| Resolved (result : value)
| Rejected (err : msal_error).

(** How the promise of [getAuthCodeUrl] settles. *)
Inductive url_response : Type :=
| UrlResolved (url : string)
| UrlRejected (err : msal_error).

(** What a call does to the outside world, in order. *)
Inductive effect : Type :=
| FsExists
| FsRead
| FsWrite (data : string)
| ConsoleError (label : string) (e : exn)
| AcquireTokenByRefreshToken (refreshToken : value)
| AcquireTokenByCode (code : string)
| GetAuthCodeUrl.

(** The file at [tokenCachePath]. *)
Inductive file : Type :=
| NoFile
| Unreadable
| Content (data : string).

(** [tokenCache] is the module-level variable, [disk] the cache file,
    [writable] whether [writeFileSync] succeeds, [trace] the effects so
    far.  [torn] is what a failing [writeFileSync] does to the file: it
    opens the file for writing, which empties it, then writes; [None] is a
    failure to open, which leaves the file as it was, [Some n] a failure
    after the file was opened and [n] bytes were written. *)
Record world : Type := World {
  tokenCache : value;
  disk : file;
  writable : bool;
  torn : option nat;
  trace : list effect
}.

(** A world in which a write, when it fails, fails to open the file. *)
Definition mkWorld (tc : value) (d : file) (wr : bool) (tr : list effect)
  : world :=
  World tc d wr None tr.

(** [let tokenCache = {}] with nothing done yet. *)
Definition initial (d : file) (wr : bool) : world := mkWorld (VObj []) d wr [].

Definition emit (es : list effect) (w : world) : world :=
  World (tokenCache w) (disk w) (writable w) (torn w) (trace w ++ es).

Definition assign (v : value) (w : world) : world :=
  World v (disk w) (writable w) (torn w) (trace w).

Definition write (data : string) (w : world) : world :=
  World (tokenCache w) (Content data) (writable w) (torn w) (trace w).

(** [function loadTokenCache()], lines 55-63.  The [try] covers the read
    and the parse; the [catch] hands the exception it caught to
    [console.error] and goes on, so the function always returns. *)
Definition loadTokenCache (w : world) : world :=
  match disk w with
  | NoFile => emit [FsExists] w
  | Unreadable =>
      emit [FsExists; FsRead; ConsoleError "Failed to load token cache:" IOError] w
  | Content data =>
      match JSON_parse data with
      | Some v => assign v (emit [FsExists; FsRead] w)
      | None =>
          emit [FsExists; FsRead;
                ConsoleError "Failed to load token cache:" (SyntaxError data)] w
      end
  end.

(** [function saveTokenCache()], lines 65-71.  [writeFileSync] refuses an
    [undefined] payload with a TypeError; the [catch] logs any failure and
    goes on.  A write that fails after the file was opened leaves the bytes
    written until then. *)
Definition saveTokenCache (w : world) : world :=
  match JSON_stringify (tokenCache w) with
  | Some data =>
      if writable w then write data (emit [FsWrite data] w)
      else
        let w1 :=
          emit [FsWrite data; ConsoleError "Failed to save token cache:" IOError] w in
        match torn w with
        | None => w1
        | Some n => write (substring 0 n data) w1
        end
  | None => emit [ConsoleError "Failed to save token cache:" TypeError] w
  end.

(** The condition of line 77,
    [tokenCache.accessToken && tokenCache.expiresOn &&
     new Date(tokenCache.expiresOn) > new Date()],
    as the [if] reads it; [None] is the TypeError of reading a property of
    [null]. *)
Definition has_valid_token (now : Z) (tc : value) : option bool :=
  match get_prop tc "accessToken" with
  | None => None
  | Some a =>
      if truthy a then
        match get_prop tc "expiresOn" with
        | None => None
        | Some e => Some (if truthy e then date_after e now else false)
        end
      else Some false
  end.

Inductive outcome : Type :=
| Returned (v : value)
| Threw (e : exn).

(** Where an async function stands when control goes back to the event
    loop. *)
Inductive progress : Type :=
| Finished (o : outcome)
| Suspended.

Definition no_valid_authentication : exn :=
  Error "No valid authentication. Please run the authentication flow first.".

(** [getAccessToken], lines 74-87: from the call to the first [await] (or
    to the end when there is none).  [now] is the clock read by
    [new Date()].  The request carries the stored refresh token; its scopes
    are constants. *)
Definition getAccessToken_begin (now : Z) (w : world) : world * progress :=
  let w1 := loadTokenCache w in
  match has_valid_token now (tokenCache w1) with
  | None => (w1, Finished (Threw TypeError))
  | Some true =>
      match get_prop (tokenCache w1) "accessToken" with
      | Some a => (w1, Finished (Returned a))
      | None => (w1, Finished (Threw TypeError))
      end
  | Some false =>
      match get_prop (tokenCache w1) "refreshToken" with
      | None => (w1, Finished (Threw TypeError))
      | Some rt =>
          if truthy rt
          then (emit [AcquireTokenByRefreshToken rt] w1, Suspended)
          else (w1, Finished (Threw no_valid_authentication))
      end
  end.

(** The object literal of lines 89-93, evaluated left to right; [None] is a
    TypeError ([result] or [tokenCache] being [null]). *)
Definition refreshed_record (result old : value) : option value :=
  match get_prop result "accessToken" with
  | None => None
  | Some a =>
      match get_prop result "refreshToken" with
      | None => None
      | Some r =>
          match (if truthy r then Some r else get_prop old "refreshToken") with
          | None => None
          | Some rt =>
              match get_prop result "expiresOn" with
              | None => None
              | Some e =>
                  Some (VObj [("accessToken", a); ("refreshToken", rt);
                              ("expiresOn", e)])
              end
          end
      end
  end.

(** [getAccessToken], lines 88-101: from the settling of
    [acquireTokenByRefreshToken] to the end. *)
Definition getAccessToken_resume (r : response) (w : world) : world * outcome :=
  match r with
  | Resolved result =>
      match refreshed_record result (tokenCache w) with
      | Some record =>
          let w1 := saveTokenCache (assign record w) in
          match get_prop result "accessToken" with
          | Some a => (w1, Returned a)
          | None =>
              (emit [ConsoleError "Refresh token failed:" TypeError] w1,
               Threw no_valid_authentication)
          end
      | None =>
          (emit [ConsoleError "Refresh token failed:" TypeError] w,
           Threw no_valid_authentication)
      end
  | Rejected err =>
      (emit [ConsoleError "Refresh token failed:" (MsalError err)] w,
       Threw no_valid_authentication)
  end.

(** One call of [getAccessToken] that nothing interleaves with: [r] is what
    the identity provider answers if it is asked. *)
Definition getAccessToken (now : Z) (r : response) (w : world) : world * outcome :=
  match getAccessToken_begin now w with
  | (w1, Finished o) => (w1, o)
  | (w1, Suspended) => getAccessToken_resume r w1
  end.

(** The object literal of lines 143-147. *)
Definition authorized_record (result : value) : option value :=
  match get_prop result "accessToken" with
  | None => None
  | Some a =>
      match get_prop result "refreshToken" with
      | None => None
      | Some r =>
          match get_prop result "expiresOn" with
          | None => None
          | Some e =>
              Some (VObj [("accessToken", a); ("refreshToken", r);
                          ("expiresOn", e)])
          end
      end
  end.

Definition text_content (text : string) : value :=
  VObj [("content", VArr [VObj [("type", VStr "text"); ("text", VStr text)]])].

(** The [outlook_auth] handler up to its [await]: without a code (absent or
    empty) it asks for the consent URL, with one it sends the code. *)
Definition outlook_auth_begin (authCode : option string) (w : world) : world :=
  match authCode with
  | Some code =>
      if String.eqb code EmptyString then emit [GetAuthCodeUrl] w
      else emit [AcquireTokenByCode code] w
  | None => emit [GetAuthCodeUrl] w
  end.

(** The [outlook_auth] handler after [getAuthCodeUrl] settled, lines
    130-135. *)
Definition outlook_auth_resume_url (r : url_response) (w : world)
  : world * outcome :=
  match r with
  | UrlResolved url =>
      (w, Returned (text_content
             ("Please visit this URL to authenticate:" ++ nl ++ url ++ nl ++ nl
              ++ "Then call this tool again with the 'code' parameter from the redirect URL.")))
  | UrlRejected err => (w, Threw (MsalError err))
  end.

(** The [outlook_auth] handler after [acquireTokenByCode] settled, lines
    143-155.  Nothing catches here: a rejection leaves the handler as it
    is. *)
Definition outlook_auth_resume_code (r : response) (w : world) : world * outcome :=
  match r with
  | Resolved result =>
      match authorized_record result with
      | Some record =>
          (saveTokenCache (assign record w),
           Returned (text_content
             "Authentication successful! You can now use other Outlook tools."))
      | None => (w, Threw TypeError)
      end
  | Rejected err => (w, Threw (MsalError err))
  end.

(** *** The event loop

    Calls run to their [await]; a suspended call continues when its promise
    settles.  Several calls may be suspended at once. *)

Inductive task : Type :=
| RefreshWait          (* getAccessToken at line 84 *)
| UrlWait              (* outlook_auth at line 126 *)
| CodeWait.            (* outlook_auth at line 137 *)

Inductive event : Type :=
| CallGetAccessToken (now : Z)
| CallOutlookAuth (authCode : option string)
| Settle (id : nat) (r : response)
| SettleUrl (id : nat) (r : url_response).

(** [waiting] are the suspended calls, [finished] the outcomes delivered so
    far (latest first); a call is named by its rank among the calls. *)
Record system : Type := mkSystem {
  state : world;
  waiting : list (nat * task);
  finished : list (nat * outcome);
  next : nat
}.

Definition boot (w : world) : system := mkSystem w [] [] 0.

Fixpoint find_task (id : nat) (ts : list (nat * task)) : option task :=
  match ts with
  | [] => None
  | (i, t) :: rest => if Nat.eqb id i then Some t else find_task id rest
  end.

Fixpoint remove_task (id : nat) (ts : list (nat * task)) : list (nat * task) :=
  match ts with
  | [] => []
  | (i, t) :: rest =>
      if Nat.eqb id i then rest else (i, t) :: remove_task id rest
  end.

Definition handle (ev : event) (sys : system) : system :=
  match ev with
  | CallGetAccessToken now =>
      match getAccessToken_begin now (state sys) with
      | (w, Finished o) =>
          mkSystem w (waiting sys) ((next sys, o) :: finished sys) (S (next sys))
      | (w, Suspended) =>
          mkSystem w (waiting sys ++ [(next sys, RefreshWait)]) (finished sys)
            (S (next sys))
      end
  | CallOutlookAuth authCode =>
      let w := outlook_auth_begin authCode (state sys) in
      let t := match authCode with
               | Some code => if String.eqb code EmptyString then UrlWait else CodeWait
               | None => UrlWait
               end in
      mkSystem w (waiting sys ++ [(next sys, t)]) (finished sys) (S (next sys))
  | Settle id r =>
      match find_task id (waiting sys) with
      | Some RefreshWait =>
          let '(w, o) := getAccessToken_resume r (state sys) in
          mkSystem w (remove_task id (waiting sys)) ((id, o) :: finished sys)
            (next sys)
      | Some CodeWait =>
          let '(w, o) := outlook_auth_resume_code r (state sys) in
          mkSystem w (remove_task id (waiting sys)) ((id, o) :: finished sys)
            (next sys)
      | _ => sys
      end
  | SettleUrl id r =>
      match find_task id (waiting sys) with
      | Some UrlWait =>
          let '(w, o) := outlook_auth_resume_url r (state sys) in
          mkSystem w (remove_task id (waiting sys)) ((id, o) :: finished sys)
            (next sys)
      | _ => sys
      end
  end.

Definition run (evs : list event) (sys : system) : system :=
  fold_left (fun s ev => handle ev s) evs sys.

(** [count] calls, numbered from [first], all suspended in
    [getAccessToken]. *)
Definition refresh_waiters (first count : nat) : list (nat * task) :=
  map (fun i => (i, RefreshWait)) (seq first count).

(** The provider answering the call [id] with [r]. *)
Definition answer (a : nat * response) : event := Settle (fst a) (snd a).

(** What the answer [r] to its request is worth to a caller of
    [getAccessToken], lines 88-101: the access token of a result, the
    authentication error for a rejection or for a result without
    properties. *)
Definition refresh_outcome (r : response) : outcome :=
  match r with
  | Resolved result =>
      match get_prop result "accessToken" with
      | Some a => Returned a
      | None => Threw no_valid_authentication
      end
  | Rejected _ => Threw no_valid_authentication
  end.

(** The calls numbered below [count] that none of [answered] names. *)
Definition unanswered (count : nat) (answered : list nat) : list (nat * task) :=
  map (fun i => (i, RefreshWait))
    (filter (fun i => negb (existsb (Nat.eqb i) answered)) (seq 0 count)).

(** *** The states of the specification, read off the code's two tests *)

Inductive auth_state : Type :=
| Unauthenticated
| Authenticated
| NeedsRefresh.

(** The state of a record at time [now]: line 77 decides [Authenticated],
    line 82 decides between the other two.  [None]: the record is [null]. *)
Definition classify (now : Z) (tc : value) : option auth_state :=
  match has_valid_token now tc with
  | None => None
  | Some true => Some Authenticated
  | Some false =>
      match get_prop tc "refreshToken" with
      | None => None
      | Some rt => Some (if truthy rt then NeedsRefresh else Unauthenticated)
      end
  end.

Definition is_refresh_call (e : effect) : bool :=
  match e with AcquireTokenByRefreshToken _ => true | _ => false end.

Definition is_network_call (e : effect) : bool :=
  match e with
  | AcquireTokenByRefreshToken _ | AcquireTokenByCode _ | GetAuthCodeUrl => true
  | _ => false
  end.

Definition is_fs_write (e : effect) : bool :=
  match e with FsWrite _ => true | _ => false end.

Definition refresh_calls (w : world) : nat :=
  List.length (filter is_refresh_call (trace w)).

(** *** Credential records *)

(** The record the server keeps: the object literal with its three
    fields. *)
Definition credential (accessToken refreshToken expiresOn : value) : value :=
  VObj [("accessToken", accessToken); ("refreshToken", refreshToken);
        ("expiresOn", expiresOn)].

(** A token is absent or a string. *)
Definition token_field (v : value) : bool :=
  match v with
  | VUndefined | VStr _ => true
  | _ => false
  end.

(** An expiry is absent, a string (as read from the file) or a valid
    [Date] (as MSAL hands it over). *)
Definition expiry_field (v : value) : bool :=
  match v with
  | VUndefined | VStr _ => true
  | VDate (Some t) => Z.abs t <=? maxTime
  | _ => false
  end.

(** What a field has become once written and read back: a [Date] is its
    ISO string, anything else is itself. *)
Definition persisted (v : value) : value :=
  match v with
  | VDate (Some t) => VStr (toISOString t)
  | _ => v
  end.

(** The members of a record that reach the file, with their text. *)
Definition string_members (fields : list (string * value))
  : list (string * string) :=
  flat_map (fun kv => match persisted (snd kv) with
                      | VStr s => [(fst kv, s)]
                      | _ => []
                      end) fields.

(** The environment replacing the cache file between two calls. *)
Definition set_disk (d : file) (w : world) : world :=
  World (tokenCache w) d (writable w) (torn w) (trace w).

(** The environment deciding how the next failing write fails. *)
Definition set_torn (t : option nat) (w : world) : world :=
  World (tokenCache w) (disk w) (writable w) t (trace w).

(** One call of the [outlook_auth] handler that nothing interleaves with:
    [u] and [r] are what MSAL answers to the request for the consent URL
    and to the code exchange, whichever is made. *)
Definition outlook_auth (authCode : option string) (u : url_response)
  (r : response) (w : world) : world * outcome :=
  let w1 := outlook_auth_begin authCode w in
  match authCode with
  | Some code =>
      if String.eqb code EmptyString then outlook_auth_resume_url u w1
      else outlook_auth_resume_code r w1
  | None => outlook_auth_resume_url u w1
  end.

(** The effects a step added to the trace are quiet when none of them is a
    network call or a file write. *)
Definition quiet (es : list effect) : bool :=
  forallb (fun e => negb (is_network_call e) && negb (is_fs_write e)) es.

End Server.

(* ================================================================== *)
(** ** Concrete caches used to run the code *)

Module Samples.
Import JS JSON Server.

(** The text [saveTokenCache] writes for a record. *)
Definition cache_text (v : value) : string :=
  match JSON_stringify v with
  | Some data => data
  | None => EmptyString
  end.

(** 2024-01-01T00:00:00.000Z. *)
Definition midnight : Z := 1704067200000.

(** A record as it is read from the file: the expiry is an ISO string. *)
Definition stored (expiresOn : string) : value :=
  VObj [("accessToken", VStr "A1"); ("refreshToken", VStr "R1");
        ("expiresOn", VStr expiresOn)].

(** A record as [getAccessToken] builds it from an MSAL result: the expiry
    is a [Date]. *)
Definition fresh (expiresOn : Z) : value :=
  VObj [("accessToken", VStr "A1"); ("refreshToken", VStr "R1");
        ("expiresOn", VDate (Some expiresOn))].

(** A server started on a cache file holding [stored expiresOn]. *)
Definition started (expiresOn : string) : world :=
  initial (Content (cache_text (stored expiresOn))) true.

(** A server whose cached access token ran out at midnight. *)
Definition expired : world := started "2024-01-01T00:00:00.000Z".

(** An MSAL result with only an access token and an expiry. *)
Definition renewed : value :=
  VObj [("accessToken", VStr "A2");
        ("expiresOn", VDate (Some (midnight + 3600000)))].

End Samples.

(* ================================================================== *)
(** ** server.js: the time helper and the tools that call Graph *)

(** The string methods the helper and the tools use, with a one-character
    argument: [s.includes(c)], [s.replace(c, '')] (the first occurrence
    only) and [s.split(c)[0]]. *)
Module Text.

Fixpoint includes (c : ascii) (s : string) : bool :=
  match s with
  | EmptyString => false
  | String x rest => Ascii.eqb x c || includes c rest
  end.

Fixpoint replace_first (c : ascii) (s : string) : string :=
  match s with
  | EmptyString => EmptyString
  | String x rest => if Ascii.eqb x c then rest else String x (replace_first c rest)
  end.

Fixpoint split_head (c : ascii) (s : string) : string :=
  match s with
  | EmptyString => EmptyString
  | String x rest => if Ascii.eqb x c then EmptyString else String x (split_head c rest)
  end.

Fixpoint count (c : ascii) (s : string) : nat :=
  match s with
  | EmptyString => O
  | String x rest => if Ascii.eqb x c then S (count c rest) else count c rest
  end.

(** An optional string parameter used as a condition: absent and empty are
    both falsy. *)
Definition given (p : option string) : option string :=
  match p with
  | Some s => if String.eqb s EmptyString then None else Some s
  | None => None
  end.

End Text.

Module Tools.
Import JS DateTime JSON Server Text.

(** *** Requests to Graph *)

Inductive http_method : Type := GET | POST | PATCH | DELETE.

(** One call [client.api(path).query(query).<method>(payload)]; [bearer] is
    the token [getGraphClient] was given.  [VUndefined] stands for no query
    and no payload. *)
Record request : Type := mkRequest {
  method : http_method;
  path : string;
  bearer : value;
  query : value;
  payload : value
}.

(** How an awaited Graph call settles. *)
Inductive graph_result (A : Type) : Type :=
| Answer (a : A)
| Refusal (detail : string).
Arguments Answer {A} a.
Arguments Refusal {A} detail.

(** What a tool handler can throw: what [getAccessToken] and the handler
    itself throw, the rejection of a Graph call, and the RangeError of
    [toISOString] on an Invalid Date. *)
Inductive tool_exn : Type :=
| Js (e : exn)
| GraphError (detail : string)
| RangeError.

Inductive tool_outcome : Type :=
| Replied (text : string)
| Raised (e : tool_exn).

(** The two lines every tool starts with:
    [const accessToken = await getAccessToken();
     const client = getGraphClient(accessToken);].
    [body] is the rest of the handler, given the token: the handlers below
    are written as such bodies, and a tool is [authorized] applied to
    one.  A reply [Replied text] is the object
    [{ content: [{ type: 'text', text }] }]. *)
Definition authorized (now : Z) (r : response) (w : world)
  (body : value -> list request * tool_outcome)
  : world * (list request * tool_outcome) :=
  match getAccessToken now r w with
  | (w1, Returned tok) => (w1, body tok)
  | (w1, Threw e) => (w1, ([], Raised (Js e)))
  end.

Inductive importance : Type := low | normal | high.

Definition importance_name (i : importance) : string :=
  match i with low => "low" | normal => "normal" | high => "high" end.

Inductive show_as : Type := free | tentative | busy | oof | workingElsewhere.

Definition show_as_name (s : show_as) : string :=
  match s with
  | free => "free" | tentative => "tentative" | busy => "busy"
  | oof => "oof" | workingElsewhere => "workingElsewhere"
  end.

Inductive task_status : Type :=
| notStarted | inProgress | completed | waitingOnOthers | deferred.

Definition task_status_name (s : task_status) : string :=
  match s with
  | notStarted => "notStarted" | inProgress => "inProgress"
  | completed => "completed" | waitingOnOthers => "waitingOnOthers"
  | deferred => "deferred"
  end.

(** [if (p) obj.k = f(p)] for an optional string parameter. *)
Definition when_given (p : option string) (k : string) (f : string -> value)
  : list (string * value) :=
  match given p with
  | Some s => [(k, f s)]
  | None => []
  end.

(** [if (p) obj.k = f(p)] for an optional parameter that is truthy whenever
    it is present (an array, an enum name). *)
Definition when_present {A : Type} (p : option A) (k : string) (f : A -> value)
  : list (string * value) :=
  match p with
  | Some a => [(k, f a)]
  | None => []
  end.

Definition html_body (content : string) : value :=
  VObj [("contentType", VStr "HTML"); ("content", VStr content)].

Definition text_body (content : string) : value :=
  VObj [("content", VStr content); ("contentType", VStr "text")].

(** *** formatDateTimeForGraph, lines 18-35 *)

(** The object the helper returns. *)
Record graph_time : Type := mkGraphTime {
  dateTime : string;
  timeZone : string
}.

Definition graph_time_value (t : graph_time) : value :=
  VObj [("dateTime", VStr (dateTime t)); ("timeZone", VStr (timeZone t))].

Section Handlers.

(** [getSystemTimezone()], lines 14-16: the zone the process runs in. *)
Variable getSystemTimezone : string.

(** [String.prototype.toLowerCase]. *)
Variable toLowerCase : string -> string.

Definition formatDateTimeForGraph (dateTime : string) (timezone : option string)
  : graph_time :=
  let tz := match given timezone with
            | Some z => z
            | None => getSystemTimezone
            end in
  let dt := dateTime in
  let dt := if negb (includes "T" dt) then dt ++ "T00:00:00" else dt in
  let dt := if negb (includes "Z" dt) && negb (includes "+" dt)
               && negb (includes "-" dt)
            then dt ++ ".000Z" else dt in
  mkGraphTime (replace_first "Z" dt) tz.

(** *** outlook_send_email, lines 246-293 *)

Definition recipient (email : string) : value :=
  VObj [("emailAddress", VObj [("address", VStr email)])].

(** The [message] object of lines 260-281. *)
Definition mail_message (subject body : string) (imp : importance)
  (to : list string) (cc bcc : option (list string)) : value :=
  VObj ([("subject", VStr subject);
         ("body", html_body body);
         ("importance", VStr (importance_name imp));
         ("toRecipients", VArr (map recipient to))]
        ++ when_present cc "ccRecipients" (fun l => VArr (map recipient l))
        ++ when_present bcc "bccRecipients" (fun l => VArr (map recipient l)))%list.

Definition send_email (to : list string) (subject body : string)
  (cc bcc : option (list string)) (imp : importance)
  (sent : graph_result unit) (tok : value) : list request * tool_outcome :=
  let q := mkRequest POST "/me/sendMail" tok VUndefined
             (VObj [("message", mail_message subject body imp to cc bcc)]) in
  match sent with
  | Answer _ => ([q], Replied "Email sent successfully!")
  | Refusal detail => ([q], Raised (GraphError detail))
  end.

(** *** outlook_move_email, lines 405-436 *)

(** A mail folder as the handler reads it. *)
Record folder : Type := mkFolder {
  folder_id : string;
  displayName : string
}.

(** [folders.value.find(f => f.displayName.toLowerCase() ===
    destinationFolder.toLowerCase())]. *)
Definition find_folder (destinationFolder : string) (folders : list folder)
  : option folder :=
  find (fun f => String.eqb (toLowerCase (displayName f))
                   (toLowerCase destinationFolder)) folders.

Definition move_email (emailId destinationFolder : string)
  (folders : graph_result (list folder)) (moved : graph_result unit)
  (tok : value) : list request * tool_outcome :=
  let q1 := mkRequest GET "/me/mailFolders" tok VUndefined VUndefined in
  match folders with
  | Refusal detail => ([q1], Raised (GraphError detail))
  | Answer fs =>
      match find_folder destinationFolder fs with
      | None =>
          ([q1], Raised (Js (Error ("Folder " ++ String dquote destinationFolder
                                    ++ String dquote " not found"))))
      | Some target =>
          let q2 := mkRequest POST ("/me/messages/" ++ emailId ++ "/move") tok
                      VUndefined
                      (VObj [("destinationId", VStr (folder_id target))]) in
          match moved with
          | Answer _ =>
              ([q1; q2], Replied ("Email moved to " ++ destinationFolder
                                  ++ " successfully!"))
          | Refusal detail => ([q1; q2], Raised (GraphError detail))
          end
      end
  end.

(** *** outlook_list_calendar_events, lines 469-523, up to its request *)

Definition week : Z := 7 * 24 * 60 * 60 * 1000.

(** [start] and [end] of lines 480-484; [None] is the RangeError of
    [toISOString] on a date past the last representable instant. *)
Definition calendar_window (now : Z) (startDateTime endDateTime : option string)
  : option (string * string) :=
  let start := match given startDateTime with
               | Some s => s
               | None => toISOString now
               end in
  match given endDateTime with
  | Some e => Some (start, e)
  | None =>
      match time_clip (now + week) with
      | Some t => Some (start, toISOString t)
      | None => None
      end
  end.

Definition calendar_view_select : string :=
  "id,subject,start,end,location,bodyPreview,organizer,attendees,importance,showAs,isAllDay".

(** The request of lines 486-494; [limit] is the number given. *)
Definition list_calendar_events_request (now : Z)
  (startDateTime endDateTime : option string) (limit : value) (tok : value)
  : option request :=
  match calendar_window now startDateTime endDateTime with
  | Some (start, e) =>
      Some (mkRequest GET "/me/calendarView" tok
              (VObj [("startDateTime", VStr start); ("endDateTime", VStr e);
                     ("$top", limit); ("$select", VStr calendar_view_select);
                     ("$orderby", VStr "start/dateTime")])
              VUndefined)
  | None => None
  end.

(** *** outlook_create_calendar_event, lines 525-596 *)

Definition attendee (email : string) : value :=
  VObj [("emailAddress", VObj [("address", VStr email)]); ("type", VStr "required")].

(** [event.start] and [event.end], lines 551-565. *)
Definition event_time (isAllDay : bool) (t : string) (timezone : option string)
  : graph_time :=
  if isAllDay then mkGraphTime (split_head "T" t) "tzone://Microsoft/Custom"
  else formatDateTimeForGraph t timezone.

(** The [event] object of lines 543-585. *)
Definition calendar_event (subject start end_ : string)
  (body location : option string) (attendees : option (list string))
  (imp : importance) (showAs : show_as) (isAllDay : bool)
  (timezone : option string) : value :=
  VObj ([("subject", VStr subject);
         ("importance", VStr (importance_name imp));
         ("showAs", VStr (show_as_name showAs));
         ("isAllDay", VBool isAllDay);
         ("start", graph_time_value (event_time isAllDay start timezone));
         ("end", graph_time_value (event_time isAllDay end_ timezone))]
        ++ when_given body "body" html_body
        ++ when_given location "location"
             (fun l => VObj [("displayName", VStr l)])
        ++ when_present attendees "attendees" (fun l => VArr (map attendee l)))%list.

(** The handler after the token; the answer of Graph is the [id] of the new
    event. *)
Definition create_calendar_event (subject start end_ : string)
  (body location : option string) (attendees : option (list string))
  (imp : importance) (showAs : show_as) (isAllDay : bool)
  (timezone : option string) (created : graph_result string) (tok : value)
  : list request * tool_outcome :=
  let q := mkRequest POST "/me/events" tok VUndefined
             (calendar_event subject start end_ body location attendees imp
                showAs isAllDay timezone) in
  match created with
  | Answer id =>
      ([q], Replied ("Calendar event created successfully! Event ID: " ++ id
                     ++ nl ++ "Timezone: "
                     ++ timeZone (event_time isAllDay start timezone)))
  | Refusal detail => ([q], Raised (GraphError detail))
  end.

(** *** outlook_update_calendar_event, lines 598-632 *)

(** The [updateData] object of lines 614-621. *)
Definition event_update (subject start end_ body location : option string)
  (imp : option importance) (timezone : option string) : value :=
  VObj (when_given subject "subject" VStr
        ++ when_given start "start"
             (fun t => graph_time_value (formatDateTimeForGraph t timezone))
        ++ when_given end_ "end"
             (fun t => graph_time_value (formatDateTimeForGraph t timezone))
        ++ when_given body "body" html_body
        ++ when_given location "location"
             (fun l => VObj [("displayName", VStr l)])
        ++ when_present imp "importance" (fun i => VStr (importance_name i)))%list.

Definition update_calendar_event (eventId : string)
  (subject start end_ body location : option string) (imp : option importance)
  (timezone : option string) (patched : graph_result unit) (tok : value)
  : list request * tool_outcome :=
  let q := mkRequest PATCH ("/me/events/" ++ eventId) tok VUndefined
             (event_update subject start end_ body location imp timezone) in
  match patched with
  | Answer _ => ([q], Replied "Calendar event updated successfully!")
  | Refusal detail => ([q], Raised (GraphError detail))
  end.

(** *** The task tools, lines 701-887 *)

Definition todo_lists (tok : value) : request :=
  mkRequest GET "/me/todo/lists" tok VUndefined VUndefined.

Definition tasks_path (listId : string) : string :=
  "/me/todo/lists/" ++ listId ++ "/tasks".

Definition task_path (listId taskId : string) : string :=
  "/me/todo/lists/" ++ listId ++ "/tasks/" ++ taskId.

Definition tasks_select : string :=
  "id,title,body,dueDateTime,importance,status,completedDateTime,createdDateTime".

(** [tasksQuery], lines 723-730. *)
Definition tasks_query (done : option bool) (limit : value) : value :=
  VObj ([("$top", limit); ("$select", VStr tasks_select)]
        ++ when_present done "$filter"
             (fun c => VStr (if c then "status eq 'completed'"
                             else "status ne 'completed'")))%list.

(** [outlook_list_tasks], lines 711-734: up to the request for the tasks.
    [lists] are the ids of the task lists Graph answers with; the result is
    the requests sent and, when the handler ends here, its outcome. *)
Definition list_tasks_begin (done : option bool) (limit : value)
  (lists : graph_result (list string)) (tok : value)
  : list request * option tool_outcome :=
  match lists with
  | Refusal detail => ([todo_lists tok], Some (Raised (GraphError detail)))
  | Answer [] => ([todo_lists tok], Some (Replied "No task lists found."))
  | Answer (listId :: _) =>
      ([todo_lists tok;
        mkRequest GET (tasks_path listId) tok (tasks_query done limit) VUndefined],
       None)
  end.

Definition due_time (d : string) : value :=
  VObj [("dateTime", VStr d); ("timeZone", VStr "UTC")].

(** The [task] object of lines 775-792. *)
Definition new_task (title : string) (body dueDateTime : option string)
  (imp : importance) : value :=
  VObj ([("title", VStr title); ("importance", VStr (importance_name imp))]
        ++ when_given body "body" text_body
        ++ when_given dueDateTime "dueDateTime" due_time)%list.

(** [outlook_create_task], lines 756-803; the second answer of Graph is the
    [id] of the new task. *)
Definition create_task (title : string) (body dueDateTime : option string)
  (imp : importance) (lists : graph_result (list string))
  (created : graph_result string) (tok : value) : list request * tool_outcome :=
  match lists with
  | Refusal detail => ([todo_lists tok], Raised (GraphError detail))
  | Answer [] =>
      ([todo_lists tok],
       Raised (Js (Error "No task lists found. Please create a task list in Outlook first.")))
  | Answer (listId :: _) =>
      let q := mkRequest POST (tasks_path listId) tok VUndefined
                 (new_task title body dueDateTime imp) in
      match created with
      | Answer id =>
          ([todo_lists tok; q], Replied ("Task created successfully! Task ID: " ++ id))
      | Refusal detail => ([todo_lists tok; q], Raised (GraphError detail))
      end
  end.

(** The [updateData] object of lines 822-828. *)
Definition task_update (title body dueDateTime : option string)
  (imp : option importance) (status : option task_status) : value :=
  VObj (when_given title "title" VStr
        ++ when_given body "body" text_body
        ++ when_given dueDateTime "dueDateTime" due_time
        ++ when_present imp "importance" (fun i => VStr (importance_name i))
        ++ when_present status "status" (fun s => VStr (task_status_name s)))%list.

(** What [outlook_update_task], [outlook_delete_task] and
    [outlook_complete_task] share: [lists.value[0].id] with no test for an
    empty answer, then one request on the task; reading [id] off the
    missing first list is a TypeError. *)
Definition on_first_list (lists : graph_result (list string))
  (act : string -> request) (done : graph_result unit) (text : string)
  (tok : value) : list request * tool_outcome :=
  match lists with
  | Refusal detail => ([todo_lists tok], Raised (GraphError detail))
  | Answer [] => ([todo_lists tok], Raised (Js TypeError))
  | Answer (listId :: _) =>
      match done with
      | Answer _ => ([todo_lists tok; act listId], Replied text)
      | Refusal detail => ([todo_lists tok; act listId], Raised (GraphError detail))
      end
  end.

(** [outlook_update_task], lines 805-839. *)
Definition update_task (taskId : string) (title body dueDateTime : option string)
  (imp : option importance) (status : option task_status)
  (lists : graph_result (list string)) (patched : graph_result unit) (tok : value)
  : list request * tool_outcome :=
  on_first_list lists
    (fun listId => mkRequest PATCH (task_path listId taskId) tok VUndefined
                     (task_update title body dueDateTime imp status))
    patched "Task updated successfully!" tok.

(** [outlook_delete_task], lines 841-862. *)
Definition delete_task (taskId : string) (lists : graph_result (list string))
  (deleted : graph_result unit) (tok : value) : list request * tool_outcome :=
  on_first_list lists
    (fun listId => mkRequest DELETE (task_path listId taskId) tok VUndefined VUndefined)
    deleted "Task deleted successfully!" tok.

(** [outlook_complete_task], lines 864-887. *)
Definition complete_task (taskId : string) (lists : graph_result (list string))
  (patched : graph_result unit) (tok : value) : list request * tool_outcome :=
  on_first_list lists
    (fun listId => mkRequest PATCH (task_path listId taskId) tok VUndefined
                     (VObj [("status", VStr "completed")]))
    patched "Task marked as completed successfully!" tok.

End Handlers.

End Tools.

(** Two worlds that differ at most in their traces. *)
Module Frame.
Import Server.

Definition same_store (w w' : world) : Prop :=
  tokenCache w = tokenCache w' /\ disk w = disk w'
  /\ (writable w = writable w' /\ torn w = torn w').

End Frame.

(* ================================================================== *)
(** ** Properties of the platform model *)

Module CodecFacts.
Import JS DateTime JSON.

(** *** [Date.parse] reads what [toISOString] writes *)

Lemma append_assoc (a b c : string) : (a ++ b) ++ c = a ++ (b ++ c).
Proof. induction a as [|x a IH]; simpl; [reflexivity | now rewrite IH]. Qed.

Lemma digit_val_digit_char (x : Z) :
  0 <= x <= 9 -> digit_val (digit_char x) = Some x.
Proof.
  intros H.
  assert (C : x = 0 \/ x = 1 \/ x = 2 \/ x = 3 \/ x = 4 \/ x = 5 \/ x = 6
              \/ x = 7 \/ x = 8 \/ x = 9) by lia.
  repeat (destruct C as [C | C]; [subst x; reflexivity |]).
  subst x; reflexivity.
Qed.

Lemma read_digits_digits (k : nat) : forall (n acc : Z) (rest : string),
  0 <= n ->
  read_digits k acc (digits k n ++ rest)
  = Some (acc * 10 ^ Z.of_nat k + n mod 10 ^ Z.of_nat k, rest).
Proof.
  induction k as [|k IH]; intros n acc rest H.
  - simpl. rewrite Z.mod_1_r. f_equal. f_equal. lia.
  - assert (P : 0 < 10 ^ Z.of_nat k) by (apply Z.pow_pos_nonneg; lia).
    cbn [digits append read_digits].
    pose proof (Z.mod_pos_bound (n / 10 ^ Z.of_nat k) 10 ltac:(lia)) as B.
    rewrite digit_val_digit_char by lia.
    rewrite IH by lia.
    rewrite Nat2Z.inj_succ, Z.pow_succ_r by lia.
    rewrite (Z.mul_comm 10 (10 ^ Z.of_nat k)).
    rewrite (Z.rem_mul_r n (10 ^ Z.of_nat k) 10) by lia.
    f_equal. f_equal. ring.
Qed.

Lemma read_digits_exact (k : nat) (n : Z) (rest : string) :
  0 <= n < 10 ^ Z.of_nat k ->
  read_digits k 0 (digits k n ++ rest) = Some (n, rest).
Proof.
  intros H. rewrite read_digits_digits by lia.
  rewrite Z.mod_small by lia. reflexivity.
Qed.

Lemma expect_same (c : ascii) (rest : string) : expect c (String c rest) = Some rest.
Proof. unfold expect. now rewrite Ascii.eqb_refl. Qed.

Lemma read_year_digit (x : Z) (rest : string) :
  0 <= x <= 9 ->
  read_year (String (digit_char x) rest)
  = read_digits 4 0 (String (digit_char x) rest).
Proof.
  intros H.
  assert (C : x = 0 \/ x = 1 \/ x = 2 \/ x = 3 \/ x = 4 \/ x = 5 \/ x = 6
              \/ x = 7 \/ x = 8 \/ x = 9) by lia.
  repeat (destruct C as [C | C]; [subst x; reflexivity |]).
  subst x; reflexivity.
Qed.

Lemma read_year_year_string (y : Z) (rest : string) :
  -999999 <= y <= 999999 ->
  read_year (year_string y ++ rest) = Some (y, rest).
Proof.
  intros H. unfold year_string.
  destruct ((0 <=? y) && (y <=? 9999)) eqn:E.
  - apply andb_true_iff in E as [E1 E2].
    apply Z.leb_le in E1. apply Z.leb_le in E2.
    change (digits 4 y ++ rest)
      with (String (digit_char ((y / 10 ^ 3) mod 10)) (digits 3 y ++ rest)).
    rewrite read_year_digit
      by (pose proof (Z.mod_pos_bound (y / 10 ^ 3) 10 ltac:(lia)); lia).
    change (String (digit_char ((y / 10 ^ 3) mod 10)) (digits 3 y ++ rest))
      with (digits 4 y ++ rest).
    apply read_digits_exact. simpl. lia.
  - destruct (y <? 0) eqn:N.
    + apply Z.ltb_lt in N.
      change (("-" ++ digits 6 (- y)) ++ rest)
        with (String "-" (digits 6 (- y) ++ rest)).
      cbn [read_year].
      rewrite read_digits_exact by (simpl; lia).
      assert ((- y =? 0) = false) as -> by (apply Z.eqb_neq; lia).
      f_equal. f_equal. lia.
    + apply Z.ltb_ge in N.
      change (("+" ++ digits 6 y) ++ rest) with (String "+" (digits 6 y ++ rest)).
      cbn [read_year].
      apply read_digits_exact. simpl. lia.
Qed.

Lemma civil_from_days_inverse (z : Z) :
  -100000000 <= z <= 100000000 ->
  exists y m d,
    civil_from_days z = (y, m, d)
    /\ -999999 <= y <= 999999 /\ 1 <= m <= 12 /\ 1 <= d <= 31
    /\ days_from_civil y m d = z.
Proof.
  intros R.
  unfold civil_from_days, days_from_civil.
  set (z' := z + 719468).
  set (era := z' / 146097).
  set (doe := z' - era * 146097).
  assert (Hera : -700 <= era <= 700).
  { unfold era, z'. Z.div_mod_to_equations. lia. }
  assert (Hdoe : 0 <= doe < 146097).
  { unfold doe, era. pose proof (Z.mod_pos_bound z' 146097 ltac:(lia)) as B.
    rewrite Z.mod_eq in B by lia. lia. }
  assert (Hz : z = era * 146097 + doe - 719468) by (unfold doe, z'; lia).
  clearbody doe. clearbody era.
  set (yoe := (doe - doe / 1460 + doe / 36524 - doe / 146096) / 365).
  assert (Hyoe : 0 <= yoe <= 399
                 /\ 0 <= doe - (365 * yoe + yoe / 4 - yoe / 100) <= 365).
  { unfold yoe. Z.div_mod_to_equations. lia. }
  clearbody yoe.
  set (doy := doe - (365 * yoe + yoe / 4 - yoe / 100)) in *.
  set (mp := (5 * doy + 2) / 153).
  assert (Hmp : 0 <= mp <= 11 /\ 1 <= doy - (153 * mp + 2) / 5 + 1 <= 31).
  { unfold mp. Z.div_mod_to_equations. lia. }
  assert (Hq : (yoe + era * 400) / 400 = era).
  { rewrite Z.div_add by lia. rewrite Z.div_small by lia. lia. }
  do 3 eexists. split; [reflexivity |].
  destruct (mp <? 10) eqn:E.
  - apply Z.ltb_lt in E.
    assert ((mp + 3 <=? 2) = false) as -> by (apply Z.leb_gt; lia).
    split; [lia |]. split; [lia |]. split; [lia |].
    replace (mp + 3 - 3) with mp by lia.
    rewrite Hq.
    replace (yoe + era * 400 - era * 400) with yoe by lia.
    unfold doy. lia.
  - apply Z.ltb_ge in E.
    assert ((mp - 9 <=? 2) = true) as -> by (apply Z.leb_le; lia).
    split; [lia |]. split; [lia |]. split; [lia |].
    replace (mp - 9 + 9) with mp by lia.
    replace (yoe + era * 400 + 1 - 1) with (yoe + era * 400) by lia.
    rewrite Hq.
    replace (yoe + era * 400 - era * 400) with yoe by lia.
    unfold doy. lia.
Qed.

Lemma valid_fields_of_time (m d r : Z) :
  1 <= m <= 12 -> 1 <= d <= 31 -> 0 <= r < msPerDay ->
  valid_fields m d (r / 3600000) ((r / 60000) mod 60) ((r / 1000) mod 60)
    (r mod 1000) = true.
Proof.
  unfold msPerDay. intros Hm Hd Hr. unfold valid_fields.
  assert (H1 : r / 3600000 <= 23) by (Z.div_mod_to_equations; lia).
  assert (H2 : (r / 60000) mod 60 <= 59) by (Z.div_mod_to_equations; lia).
  assert (H3 : (r / 1000) mod 60 <= 59) by (Z.div_mod_to_equations; lia).
  rewrite !(proj2 (Z.leb_le _ _)) by lia. reflexivity.
Qed.

(** [Date.parse (x.toISOString ())] is the time value of [x]. *)
Lemma Date_parse_toISOString (t : Z) :
  Z.abs t <= maxTime -> Date_parse (toISOString t) = Some t.
Proof.
  intros H. unfold maxTime in H. unfold toISOString.
  assert (Hday : -100000000 <= t / msPerDay <= 100000000).
  { unfold msPerDay. Z.div_mod_to_equations. lia. }
  destruct (civil_from_days_inverse _ Hday) as [y [m [d [E [Hy [Hm [Hd I]]]]]]].
  rewrite E.
  pose proof (Z.mod_pos_bound t msPerDay ltac:(unfold msPerDay; lia)) as Hr.
  set (r := t mod msPerDay) in *.
  assert (Hh : 0 <= r / 3600000 < 100) by (unfold msPerDay in Hr; Z.div_mod_to_equations; lia).
  assert (Hmi : 0 <= (r / 60000) mod 60 < 100) by (Z.div_mod_to_equations; lia).
  assert (Hs : 0 <= (r / 1000) mod 60 < 100) by (Z.div_mod_to_equations; lia).
  assert (Hms : 0 <= r mod 1000 < 1000) by (Z.div_mod_to_equations; lia).
  unfold Date_parse.
  rewrite read_year_year_string by lia.
  cbn [append]. rewrite expect_same.
  rewrite read_digits_exact by (simpl; lia).
  rewrite expect_same.
  rewrite read_digits_exact by (simpl; lia).
  rewrite expect_same.
  rewrite read_digits_exact by (simpl; lia).
  rewrite expect_same.
  rewrite read_digits_exact by (simpl; lia).
  rewrite expect_same.
  rewrite read_digits_exact by (simpl; lia).
  rewrite expect_same.
  rewrite read_digits_exact by (simpl; lia).
  rewrite valid_fields_of_time by lia.
  rewrite I.
  assert (T : t / msPerDay * msPerDay + r / 3600000 * 3600000
              + (r / 60000) mod 60 * 60000 + (r / 1000) mod 60 * 1000 + r mod 1000
              = t).
  { unfold r, msPerDay. Z.div_mod_to_equations. lia. }
  rewrite T. unfold time_clip, maxTime.
  now rewrite (proj2 (Z.leb_le _ _)) by lia.
Qed.

(** *** [JSON.parse] reads what [JSON.stringify] writes for strings *)

Lemma parse_string_body_escape_char (c : ascii) (s rest out : string) :
  parse_string_body rest = Some (s, out) ->
  parse_string_body (escape_char c ++ rest) = Some (String c s, out).
Proof.
  intros H.
  destruct c as [[] [] [] [] [] [] [] []];
    cbn; rewrite H; reflexivity.
Qed.

Lemma parse_string_body_escape (s rest : string) :
  parse_string_body (escape s ++ String dquote rest) = Some (s, rest).
Proof.
  induction s as [|c s IH].
  - reflexivity.
  - cbn [escape]. rewrite append_assoc.
    now apply parse_string_body_escape_char.
Qed.

Lemma quote_append (s rest : string) :
  quote s ++ rest = String dquote (escape s ++ String dquote rest).
Proof. unfold quote. cbn [append]. now rewrite append_assoc. Qed.

Lemma parse_value_string (fuel : nat) (s x : string) :
  skip_ws s = String dquote x ->
  parse_value (S fuel) s
  = match parse_string_body x with
    | Some (str, out) => Some (VStr str, out)
    | None => None
    end.
Proof. intros H. cbn [parse_value]. rewrite H. reflexivity. Qed.

Lemma parse_members_key (fuel : nat) (acc : list (string * value)) (s x : string) :
  skip_ws s = String dquote x ->
  parse_members (S fuel) acc s
  = match parse_string_body x with
    | Some (k, rest1) =>
        match skip_ws rest1 with
        | String ":" rest2 =>
            match parse_value fuel rest2 with
            | Some (v, rest3) =>
                match skip_ws rest3 with
                | String "," rest4 => parse_members fuel (set_prop k v acc) rest4
                | String "}" out => Some (VObj (set_prop k v acc), out)
                | _ => None
                end
            | None => None
            end
        | _ => None
        end
    | None => None
    end.
Proof. intros H. cbn [parse_members]. rewrite H. reflexivity. Qed.

(** One member, up to what follows its value. *)
Lemma parse_member (k s tail : string) (fuel : nat) (acc : list (string * value)) :
  parse_members (S (S fuel)) acc (nl ++ "  " ++ member_text (k, s) ++ tail)
  = match skip_ws tail with
    | String "," rest => parse_members (S fuel) (set_prop k (VStr s) acc) rest
    | String "}" out => Some (VObj (set_prop k (VStr s) acc), out)
    | _ => None
    end.
Proof.
  unfold member_text. cbn [fst snd].
  rewrite !append_assoc, !quote_append.
  rewrite (parse_members_key (S fuel) acc _
             (escape k ++ String dquote
                (": " ++ String dquote (escape s ++ String dquote tail))))
    by reflexivity.
  rewrite parse_string_body_escape.
  change (skip_ws (": " ++ String dquote ?x)) with (String ":" (" " ++ String dquote x)).
  cbv iota beta.
  rewrite (parse_value_string fuel _ (escape s ++ String dquote tail)) by reflexivity.
  rewrite parse_string_body_escape.
  reflexivity.
Qed.

Lemma parse_members_flat (kvs : list (string * string)) :
  forall (fuel : nat) (acc : list (string * value)) (rest : string),
  kvs <> [] -> (List.length kvs < fuel)%nat ->
  parse_members fuel acc
    (nl ++ "  " ++ join separator (map member_text kvs) ++ nl ++ "}" ++ rest)
  = Some (VObj (fold_left add_member kvs acc), rest).
Proof.
  induction kvs as [|[k s] kvs IH]; intros fuel acc rest N L; [contradiction |].
  destruct fuel as [|[|fuel]]; try (simpl in L; lia).
  destruct kvs as [|kv kvs].
  - cbn [map join]. rewrite parse_member. reflexivity.
  - change (join separator (map member_text ((k, s) :: kv :: kvs)))
      with (member_text (k, s) ++ separator ++ join separator (map member_text (kv :: kvs))).
    rewrite !append_assoc. rewrite parse_member.
    unfold separator at 1. rewrite !append_assoc.
    change (skip_ws ("," ++ ?x)) with (String "," x).
    cbv iota beta.
    rewrite IH; [reflexivity | discriminate | simpl in *; lia].
Qed.

Lemma length_append (a b : string) :
  String.length (a ++ b) = (String.length a + String.length b)%nat.
Proof. induction a as [|x a IH]; simpl; [reflexivity | now rewrite IH]. Qed.

Lemma length_join_members (kvs : list (string * string)) :
  (List.length kvs <= String.length (join separator (map member_text kvs)))%nat.
Proof.
  induction kvs as [|[k s] kvs IH]; [simpl; lia |].
  destruct kvs as [|kv kvs].
  - cbn [map join]. unfold member_text, quote. cbn. lia.
  - change (join separator (map member_text ((k, s) :: kv :: kvs)))
      with (member_text (k, s) ++ separator ++ join separator (map member_text (kv :: kvs))).
    rewrite !length_append. unfold member_text at 1, quote. cbn [fst append String.length].
    simpl List.length in *. lia.
Qed.

Lemma parse_value_object (fuel : nat) (rest x : string) :
  skip_ws rest = String dquote x ->
  parse_value (S fuel) (String "{" rest) = parse_members fuel [] rest.
Proof.
  intros H. cbn [parse_value].
  change (skip_ws (String "{" rest)) with (String "{" rest).
  cbv iota beta. rewrite H. reflexivity.
Qed.

Lemma members_start (kv : string * string) (kvs : list (string * string))
  (tail : string) :
  exists x,
    skip_ws (nl ++ "  " ++ join separator (map member_text (kv :: kvs)) ++ tail)
    = String dquote x.
Proof.
  destruct kvs as [|kv' kvs].
  - cbn [map join]. unfold member_text. rewrite !append_assoc, quote_append.
    eexists. reflexivity.
  - change (join separator (map member_text (kv :: kv' :: kvs)))
      with (member_text kv ++ separator ++ join separator (map member_text (kv' :: kvs))).
    unfold member_text at 1. rewrite !append_assoc, quote_append.
    eexists. reflexivity.
Qed.

(** An object whose members are all strings is read back member by
    member. *)
Lemma JSON_parse_flat (kvs : list (string * string)) :
  JSON_parse (bracket "{" "}" EmptyString (map member_text kvs))
  = Some (VObj (fold_left add_member kvs [])).
Proof.
  destruct kvs as [|kv kvs]; [reflexivity |].
  unfold JSON_parse.
  change (bracket "{" "}" EmptyString (map member_text (kv :: kvs)))
    with (String "{" (nl ++ "  " ++ join separator (map member_text (kv :: kvs))
                        ++ nl ++ "}" ++ EmptyString)).
  set (rest := nl ++ "  " ++ join separator (map member_text (kv :: kvs))
               ++ nl ++ "}" ++ EmptyString).
  assert (F : exists fuel, (2 * String.length (String "{" rest) + 2 = S fuel)%nat
                           /\ (List.length (kv :: kvs) < fuel)%nat).
  { pose proof (length_join_members (kv :: kvs)) as L.
    unfold rest. cbn [String.length]. rewrite !length_append.
    eexists. split; [rewrite Nat.add_comm; cbn [Nat.add]; reflexivity |].
    cbn [String.length nl]. lia. }
  destruct F as [fuel [E L]]. rewrite E.
  destruct (members_start kv kvs (nl ++ "}" ++ EmptyString)) as [x X].
  rewrite (parse_value_object fuel rest x X).
  unfold rest. rewrite parse_members_flat by (discriminate || exact L).
  reflexivity.
Qed.

End CodecFacts.

(* ================================================================== *)
(** ** Properties of the server *)

Module ServerFacts.
Import JS DateTime JSON Server CodecFacts.

(** *** Loading *)

Lemma loadTokenCache_disk (w : world) : disk (loadTokenCache w) = disk w.
Proof.
  unfold loadTokenCache.
  destruct (disk w) as [| |data] eqn:D; simpl; auto.
  destruct (JSON_parse data); simpl; auto.
Qed.

Lemma loadTokenCache_writable (w : world) :
  writable (loadTokenCache w) = writable w.
Proof.
  unfold loadTokenCache.
  destruct (disk w) as [| |data]; simpl; auto.
  destruct (JSON_parse data); simpl; auto.
Qed.

Lemma loadTokenCache_trace (w : world) :
  exists es, trace (loadTokenCache w) = (trace w ++ FsExists :: es)%list
             /\ quiet (FsExists :: es) = true.
Proof.
  unfold loadTokenCache.
  destruct (disk w) as [| |data]; simpl.
  - exists []; auto.
  - eexists; split; [reflexivity | reflexivity].
  - destruct (JSON_parse data); simpl; eexists; split; reflexivity.
Qed.

(** A file that does not parse leaves the variable as it was. *)
Lemma loadTokenCache_unparsable (w : world) (data : string) :
  disk w = Content data -> JSON_parse data = None ->
  tokenCache (loadTokenCache w) = tokenCache w.
Proof.
  intros D P. unfold loadTokenCache. rewrite D, P. reflexivity.
Qed.

Lemma loadTokenCache_absent (w : world) :
  disk w = NoFile -> tokenCache (loadTokenCache w) = tokenCache w.
Proof.
  intros D. unfold loadTokenCache. rewrite D. reflexivity.
Qed.

(** Loading on top of a loaded record, with the file untouched, gives that
    record again. *)
Lemma loadTokenCache_same (w w1 : world) :
  disk w1 = disk w -> tokenCache w1 = tokenCache (loadTokenCache w) ->
  tokenCache (loadTokenCache w1) = tokenCache (loadTokenCache w).
Proof.
  intros D C. rewrite <- C. revert C.
  unfold loadTokenCache. rewrite D.
  destruct (disk w) as [| |data]; simpl; auto.
  destruct (JSON_parse data); simpl; auto.
Qed.

(** *** The two tests of [getAccessToken] *)

Lemma classify_authenticated (now : Z) (tc : value) :
  classify now tc = Some Authenticated <-> has_valid_token now tc = Some true.
Proof.
  unfold classify.
  destruct (has_valid_token now tc) as [[|]|]; split; intros H;
    try discriminate; auto.
  destruct (get_prop tc "refreshToken") as [rt|]; try discriminate.
  destruct (truthy rt); discriminate.
Qed.

Lemma classify_needs_refresh (now : Z) (tc : value) :
  classify now tc = Some NeedsRefresh <->
  has_valid_token now tc = Some false
  /\ exists rt, get_prop tc "refreshToken" = Some rt /\ truthy rt = true.
Proof.
  unfold classify.
  destruct (has_valid_token now tc) as [[|]|]; split;
    try (intros H; discriminate); try (intros [H _]; discriminate).
  - destruct (get_prop tc "refreshToken") as [rt|]; try discriminate.
    destruct (truthy rt) eqn:T; try discriminate.
    intros _. split; auto. exists rt; auto.
  - intros [_ [rt [G T]]]. rewrite G, T. reflexivity.
Qed.

Lemma classify_unauthenticated (now : Z) (tc : value) :
  classify now tc = Some Unauthenticated <->
  has_valid_token now tc = Some false
  /\ exists rt, get_prop tc "refreshToken" = Some rt /\ truthy rt = false.
Proof.
  unfold classify.
  destruct (has_valid_token now tc) as [[|]|]; split;
    try (intros H; discriminate); try (intros [H _]; discriminate).
  - destruct (get_prop tc "refreshToken") as [rt|]; try discriminate.
    destruct (truthy rt) eqn:T; try discriminate.
    intros _. split; auto. exists rt; auto.
  - intros [_ [rt [G T]]]. rewrite G, T. reflexivity.
Qed.

(** A token that is not valid at some time is not valid later. *)
Lemma date_after_later (e : value) (now now' : Z) :
  now <= now' -> date_after e now = false -> date_after e now' = false.
Proof.
  unfold date_after. destruct (time_value e) as [t|]; auto.
  intros L H. apply Z.ltb_ge in H. apply Z.ltb_ge. lia.
Qed.

Lemma has_valid_token_later (tc : value) (now now' : Z) :
  now <= now' ->
  has_valid_token now tc = Some false -> has_valid_token now' tc = Some false.
Proof.
  unfold has_valid_token. intros L.
  destruct (get_prop tc "accessToken") as [a|]; auto.
  destruct (truthy a); auto.
  destruct (get_prop tc "expiresOn") as [e|]; auto.
  destruct (truthy e); auto.
  intros H. injection H as H. now rewrite (date_after_later e now now' L H).
Qed.

Lemma classify_needs_refresh_later (tc : value) (now now' : Z) :
  now <= now' ->
  classify now tc = Some NeedsRefresh -> classify now' tc = Some NeedsRefresh.
Proof.
  intros L H. apply classify_needs_refresh in H as [V R].
  apply classify_needs_refresh. split; auto.
  eapply has_valid_token_later; eauto.
Qed.

(** What [getAccessToken] does up to its [await], state by state. *)
Lemma begin_authenticated (now : Z) (w : world) :
  classify now (tokenCache (loadTokenCache w)) = Some Authenticated ->
  exists tok,
    get_prop (tokenCache (loadTokenCache w)) "accessToken" = Some tok
    /\ truthy tok = true
    /\ getAccessToken_begin now w = (loadTokenCache w, Finished (Returned tok)).
Proof.
  intros H. apply classify_authenticated in H.
  unfold getAccessToken_begin. rewrite H.
  unfold has_valid_token in H.
  destruct (get_prop (tokenCache (loadTokenCache w)) "accessToken") as [a|];
    try discriminate.
  destruct (truthy a) eqn:T; try discriminate.
  exists a. auto.
Qed.

Lemma begin_needs_refresh (now : Z) (w : world) :
  classify now (tokenCache (loadTokenCache w)) = Some NeedsRefresh ->
  exists rt,
    get_prop (tokenCache (loadTokenCache w)) "refreshToken" = Some rt
    /\ truthy rt = true
    /\ getAccessToken_begin now w =
       (emit [AcquireTokenByRefreshToken rt] (loadTokenCache w), Suspended).
Proof.
  intros H. apply classify_needs_refresh in H as [V [rt [G T]]].
  unfold getAccessToken_begin. rewrite V, G, T. exists rt. auto.
Qed.

Lemma begin_unauthenticated (now : Z) (w : world) :
  classify now (tokenCache (loadTokenCache w)) = Some Unauthenticated ->
  getAccessToken_begin now w =
  (loadTokenCache w, Finished (Threw no_valid_authentication)).
Proof.
  intros H. apply classify_unauthenticated in H as [V [rt [G T]]].
  unfold getAccessToken_begin. rewrite V, G, T. reflexivity.
Qed.


(** A whole call in the [Authenticated] state. *)
Lemma authenticated_after_reload (now : Z) (r : response) (w : world) :
  classify now (tokenCache (loadTokenCache w)) = Some Authenticated ->
  exists tok,
    get_prop (tokenCache (loadTokenCache w)) "accessToken" = Some tok
    /\ getAccessToken now r w = (loadTokenCache w, Returned tok).
Proof.
  intros H. destruct (begin_authenticated now w H) as [tok [G [_ B]]].
  exists tok. unfold getAccessToken. now rewrite B.
Qed.

(** *** Counting refresh exchanges *)

Lemma refresh_calls_emit (es : list effect) (w : world) :
  refresh_calls (emit es w)
  = (refresh_calls w + List.length (filter is_refresh_call es))%nat.
Proof.
  unfold refresh_calls, emit. simpl.
  now rewrite filter_app, length_app.
Qed.

Lemma refresh_calls_load (w : world) :
  refresh_calls (loadTokenCache w) = refresh_calls w.
Proof.
  unfold loadTokenCache.
  destruct (disk w) as [| |data].
  - rewrite refresh_calls_emit. simpl. lia.
  - rewrite refresh_calls_emit. simpl. lia.
  - destruct (JSON_parse data).
    + unfold assign, refresh_calls. simpl. rewrite filter_app, length_app.
      simpl. lia.
    + rewrite refresh_calls_emit. simpl. lia.
Qed.

(** A rejected refresh, whatever the reason: the one error is thrown, the
    record and the file stay as they were after loading, and the next call
    asks the provider again. *)
Lemma refresh_rejected (err : msal_error) (now : Z) (w : world) :
  classify now (tokenCache (loadTokenCache w)) = Some NeedsRefresh ->
  snd (getAccessToken now (Rejected err) w) = Threw no_valid_authentication
  /\ tokenCache (fst (getAccessToken now (Rejected err) w))
     = tokenCache (loadTokenCache w)
  /\ disk (fst (getAccessToken now (Rejected err) w)) = disk w
  /\ refresh_calls (fst (getAccessToken now (Rejected err) w))
     = S (refresh_calls w)
  /\ forall now', now <= now' ->
       classify now'
         (tokenCache (loadTokenCache (fst (getAccessToken now (Rejected err) w))))
       = Some NeedsRefresh
       /\ snd (getAccessToken_begin now' (fst (getAccessToken now (Rejected err) w)))
          = Suspended
       /\ refresh_calls
            (fst (getAccessToken_begin now' (fst (getAccessToken now (Rejected err) w))))
          = S (S (refresh_calls w)).
Proof.
  intros H.
  destruct (begin_needs_refresh now w H) as [rt [G [T B]]].
  unfold getAccessToken. rewrite B. simpl.
  set (w1 := emit _ (emit _ (loadTokenCache w))).
  assert (C1 : tokenCache w1 = tokenCache (loadTokenCache w)) by reflexivity.
  assert (D1 : disk w1 = disk w) by (unfold w1; simpl; apply loadTokenCache_disk).
  assert (R1 : refresh_calls w1 = S (refresh_calls w)).
  { unfold w1. rewrite !refresh_calls_emit, refresh_calls_load. simpl. lia. }
  repeat split; auto.
  - assert (E : tokenCache (loadTokenCache w1) = tokenCache (loadTokenCache w)).
    { apply loadTokenCache_same; auto. }
    rewrite E. eapply classify_needs_refresh_later; eauto.
  - assert (N : classify now' (tokenCache (loadTokenCache w1)) = Some NeedsRefresh).
    { assert (E : tokenCache (loadTokenCache w1) = tokenCache (loadTokenCache w)).
      { apply loadTokenCache_same; auto. }
      rewrite E. eapply classify_needs_refresh_later; eauto. }
    destruct (begin_needs_refresh now' w1 N) as [rt' [_ [_ B']]].
    rewrite B'. reflexivity.
  - assert (N : classify now' (tokenCache (loadTokenCache w1)) = Some NeedsRefresh).
    { assert (E : tokenCache (loadTokenCache w1) = tokenCache (loadTokenCache w)).
      { apply loadTokenCache_same; auto. }
      rewrite E. eapply classify_needs_refresh_later; eauto. }
    destruct (begin_needs_refresh now' w1 N) as [rt' [_ [_ B']]].
    rewrite B'. simpl. rewrite refresh_calls_emit, refresh_calls_load, R1.
    simpl. lia.
Qed.


(** *** The expiry test (claim C2) *)

(** Claim C2, evaluated on the code.  The claim asks that a token be taken
    as expired once less than five minutes remain.  Line 77 compares the
    expiry with the clock and nothing else: at midnight, a token expiring
    at 00:05:00, at 00:04:59 or even at 00:00:00.001 is returned from the
    cache, although a refresh token is at hand, and no refresh is asked
    for; only an expiry that is not after the clock leads to a refresh. *)
Theorem getAccessToken_has_no_safety_margin :
  let call expiresOn := getAccessToken_begin Samples.midnight (Samples.started expiresOn) in
  (snd (call "2024-01-01T00:05:00.000Z") = Finished (Returned (VStr "A1"))
   /\ refresh_calls (fst (call "2024-01-01T00:05:00.000Z")) = 0%nat)
  /\ (snd (call "2024-01-01T00:04:59.000Z") = Finished (Returned (VStr "A1"))
      /\ refresh_calls (fst (call "2024-01-01T00:04:59.000Z")) = 0%nat)
  /\ (snd (call "2024-01-01T00:00:00.001Z") = Finished (Returned (VStr "A1"))
      /\ refresh_calls (fst (call "2024-01-01T00:00:00.001Z")) = 0%nat)
  /\ (snd (call "2024-01-01T00:00:00.000Z") = Suspended
      /\ refresh_calls (fst (call "2024-01-01T00:00:00.000Z")) = 1%nat).
Proof. vm_compute. repeat split. Qed.

(** *** Failed refreshes (claims C3 and C4) *)

(** Claim C3 as stated fails: after a refresh rejected with [InvalidGrant]
    the record still holds its refresh token, the state is still
    [NeedsRefresh], and the next call sends a second request to the
    provider. *)
Lemma invalid_grant_keeps_refresh_token :
  let w1 := fst (getAccessToken Samples.midnight (Rejected InvalidGrant) Samples.expired) in
  classify Samples.midnight (tokenCache (loadTokenCache w1)) = Some NeedsRefresh
  /\ snd (getAccessToken_begin Samples.midnight w1) = Suspended
  /\ refresh_calls (fst (getAccessToken_begin Samples.midnight w1)) = 2%nat.
Proof. vm_compute. repeat split. Qed.

(** Claim C3, amended.  When the refresh exchange is rejected with
    [InvalidGrant], [getAccessToken] fails with the authentication error;
    the stored record and the file are left as they were, so the state
    stays [NeedsRefresh] and a later call asks the provider again. *)
Theorem invalid_grant_fails_and_is_retried (now : Z) (w : world) :
  classify now (tokenCache (loadTokenCache w)) = Some NeedsRefresh ->
  let w1 := fst (getAccessToken now (Rejected InvalidGrant) w) in
  snd (getAccessToken now (Rejected InvalidGrant) w) = Threw no_valid_authentication
  /\ tokenCache w1 = tokenCache (loadTokenCache w)
  /\ disk w1 = disk w
  /\ refresh_calls w1 = S (refresh_calls w)
  /\ forall now', now <= now' ->
       classify now' (tokenCache (loadTokenCache w1)) = Some NeedsRefresh
       /\ snd (getAccessToken_begin now' w1) = Suspended
       /\ refresh_calls (fst (getAccessToken_begin now' w1)) = S (S (refresh_calls w)).
Proof. intros H. exact (refresh_rejected InvalidGrant now w H). Qed.

Lemma invalid_grant_fails_and_is_retried_witness :
  classify Samples.midnight (tokenCache (loadTokenCache Samples.expired))
  = Some NeedsRefresh
  /\ snd (getAccessToken Samples.midnight (Rejected InvalidGrant) Samples.expired)
     = Threw no_valid_authentication.
Proof.
  split; [vm_compute; reflexivity |].
  apply (invalid_grant_fails_and_is_retried Samples.midnight Samples.expired).
  vm_compute; reflexivity.
Defined.

(** Claim C4 as stated fails: a refresh that fails because the provider
    cannot be reached ends in the very error thrown for an invalid grant
    and for a server that holds no credential at all. *)
Lemma transient_failure_is_not_distinguished :
  snd (getAccessToken Samples.midnight (Rejected NetworkError) Samples.expired)
  = snd (getAccessToken Samples.midnight (Rejected InvalidGrant) Samples.expired)
  /\ snd (getAccessToken Samples.midnight (Rejected NetworkError) Samples.expired)
     = snd (getAccessToken Samples.midnight (Rejected NetworkError) (initial NoFile true)).
Proof. vm_compute. split; reflexivity. Qed.

(** Claim C4, amended.  When the refresh exchange fails for a transient
    reason, [getAccessToken] fails with the same authentication error as
    in every other failing case; the state stays [NeedsRefresh] and a later
    call retries the exchange. *)
Theorem transient_failure_fails_and_is_retried
  (err : msal_error) (now : Z) (w : world) :
  err <> InvalidGrant ->
  classify now (tokenCache (loadTokenCache w)) = Some NeedsRefresh ->
  let w1 := fst (getAccessToken now (Rejected err) w) in
  snd (getAccessToken now (Rejected err) w) = Threw no_valid_authentication
  /\ snd (getAccessToken now (Rejected err) w)
     = snd (getAccessToken now (Rejected InvalidGrant) w)
  /\ tokenCache w1 = tokenCache (loadTokenCache w)
  /\ disk w1 = disk w
  /\ forall now', now <= now' ->
       classify now' (tokenCache (loadTokenCache w1)) = Some NeedsRefresh
       /\ snd (getAccessToken_begin now' w1) = Suspended
       /\ refresh_calls (fst (getAccessToken_begin now' w1)) = S (S (refresh_calls w)).
Proof.
  intros _ H.
  destruct (refresh_rejected err now w H) as [O [C [D [_ N]]]].
  destruct (refresh_rejected InvalidGrant now w H) as [O' _].
  cbv zeta. rewrite O, O'. auto.
Qed.

Lemma transient_failure_fails_and_is_retried_witness :
  NetworkError <> InvalidGrant
  /\ classify Samples.midnight (tokenCache (loadTokenCache Samples.expired))
     = Some NeedsRefresh
  /\ snd (getAccessToken Samples.midnight (Rejected NetworkError) Samples.expired)
     = Threw no_valid_authentication.
Proof.
  split; [discriminate |].
  split; [vm_compute; reflexivity |].
  apply (transient_failure_fails_and_is_retried NetworkError Samples.midnight
           Samples.expired).
  - discriminate.
  - vm_compute; reflexivity.
Defined.

(** *** The fast path (claim C5) *)

(** Claim C5 as stated fails: with a valid token in memory, a call still
    goes to the file system, and it replaces the record in memory by what
    the file holds (here the [Date] of the expiry becomes its ISO string). *)
Lemma authenticated_call_reads_the_file :
  let w := mkWorld (Samples.fresh (Samples.midnight + 3600000))
             (Content (Samples.cache_text (Samples.fresh (Samples.midnight + 3600000))))
             true [] in
  classify Samples.midnight (tokenCache w) = Some Authenticated
  /\ snd (getAccessToken_begin Samples.midnight w) = Finished (Returned (VStr "A1"))
  /\ trace (fst (getAccessToken_begin Samples.midnight w)) = [FsExists; FsRead]
  /\ tokenCache (fst (getAccessToken_begin Samples.midnight w)) <> tokenCache w.
Proof. vm_compute. repeat split. discriminate. Qed.

(** Claim C5, amended.  [getAccessToken] first reloads the cache file.
    Whenever the record it holds after that reload has an access token that
    is present and not expired, it returns that token at once: no network
    call, no file write, the file unchanged; the only effects are those of
    the reload (the existence test, and the read of an existing file). *)
Theorem authenticated_call_is_read_only (now : Z) (r : response) (w : world) :
  classify now (tokenCache (loadTokenCache w)) = Some Authenticated ->
  exists tok es,
    get_prop (tokenCache (loadTokenCache w)) "accessToken" = Some tok
    /\ getAccessToken now r w = (loadTokenCache w, Returned tok)
    /\ disk (loadTokenCache w) = disk w
    /\ trace (loadTokenCache w) = (trace w ++ FsExists :: es)%list
    /\ quiet (FsExists :: es) = true.
Proof.
  intros H.
  destruct (begin_authenticated now w H) as [tok [G [_ B]]].
  destruct (loadTokenCache_trace w) as [es [T Q]].
  exists tok, es. unfold getAccessToken. rewrite B.
  repeat split; auto using loadTokenCache_disk.
Qed.

Lemma authenticated_call_is_read_only_witness :
  classify Samples.midnight
    (tokenCache (loadTokenCache (Samples.started "2024-01-01T01:00:00.000Z")))
  = Some Authenticated
  /\ exists tok es,
       get_prop (tokenCache (loadTokenCache (Samples.started "2024-01-01T01:00:00.000Z")))
         "accessToken" = Some tok
       /\ getAccessToken Samples.midnight (Rejected NetworkError)
            (Samples.started "2024-01-01T01:00:00.000Z")
          = (loadTokenCache (Samples.started "2024-01-01T01:00:00.000Z"), Returned tok)
       /\ disk (loadTokenCache (Samples.started "2024-01-01T01:00:00.000Z"))
          = disk (Samples.started "2024-01-01T01:00:00.000Z")
       /\ trace (loadTokenCache (Samples.started "2024-01-01T01:00:00.000Z"))
          = (trace (Samples.started "2024-01-01T01:00:00.000Z") ++ FsExists :: es)%list
       /\ quiet (FsExists :: es) = true.
Proof.
  split; [vm_compute; reflexivity |].
  apply (authenticated_call_is_read_only Samples.midnight (Rejected NetworkError)
           (Samples.started "2024-01-01T01:00:00.000Z")).
  vm_compute; reflexivity.
Defined.

(** *** Unparsable cache files (claims C7 and C9) *)

(** A text whose first character after white space begins no JSON value
    does not parse. *)
Lemma no_value_is_unparsable (data rest : string) (c : ascii) :
  skip_ws data = String c rest -> starts_no_value c = true ->
  JSON_parse data = None.
Proof.
  intros W N. unfold JSON_parse.
  replace (2 * String.length data + 2)%nat
    with (S (2 * String.length data + 1)) by lia.
  cbn [parse_value]. rewrite W.
  destruct c as [[] [] [] [] [] [] [] []];
    try (vm_compute in N; discriminate N); reflexivity.
Qed.

(** What loading an unparsable file does on a freshly started server. *)
Lemma loadTokenCache_initial_unparsable (data : string) (wr : bool) :
  JSON_parse data = None ->
  loadTokenCache (initial (Content data) wr)
  = mkWorld (VObj []) (Content data) wr
      [FsExists; FsRead;
       ConsoleError "Failed to load token cache:" (SyntaxError data)].
Proof.
  intros P. unfold loadTokenCache, initial. simpl. rewrite P. reflexivity.
Qed.

(** Claim C7 (code bug).  A cache file that does not parse is tolerated,
    the call ending in the authentication error, but the failure is not
    logged without the file content: [loadTokenCache] hands
    [console.error] the exception raised by [JSON.parse] as it is, and for
    a text shorter than 21 characters whose first character begins no JSON
    value the message of that exception quotes the whole text, a token
    written in the file included. *)
Theorem unparsable_cache_text_reaches_the_log
  (data rest : string) (c : ascii) (wr : bool) (now : Z) (r : response) :
  skip_ws data = String c rest -> starts_no_value c = true ->
  plain data = true -> special_source data = false ->
  (String.length data < 21)%nat ->
  JSON_parse data = None
  /\ snd (getAccessToken now r (initial (Content data) wr))
     = Threw no_valid_authentication
  /\ trace (fst (getAccessToken now r (initial (Content data) wr)))
     = [FsExists; FsRead;
        ConsoleError "Failed to load token cache:" (SyntaxError data)]
  /\ syntax_error_message data
     = Some ("Unexpected token '" ++ String c "', "
             ++ String dquote data ++ String dquote " is not valid JSON").
Proof.
  intros W N A S L.
  assert (P : JSON_parse data = None) by exact (no_value_is_unparsable _ _ _ W N).
  split; [exact P |].
  unfold getAccessToken, getAccessToken_begin.
  rewrite (loadTokenCache_initial_unparsable data wr P).
  split; [reflexivity |]. split; [reflexivity |].
  unfold syntax_error_message. rewrite W, N, A, S.
  apply Nat.ltb_lt in L. rewrite L. reflexivity.
Qed.

Lemma unparsable_cache_text_reaches_the_log_witness :
  (skip_ws "access token: A1" = String "a" "ccess token: A1"
   /\ starts_no_value "a" = true
   /\ plain "access token: A1" = true
   /\ special_source "access token: A1" = false
   /\ (String.length "access token: A1" < 21)%nat)
  /\ trace (fst (getAccessToken Samples.midnight (Rejected NetworkError)
                   (initial (Content "access token: A1") true)))
     = [FsExists; FsRead;
        ConsoleError "Failed to load token cache:" (SyntaxError "access token: A1")]
  /\ syntax_error_message "access token: A1"
     = Some ("Unexpected token 'a', "
             ++ String dquote "access token: A1"
             ++ String dquote " is not valid JSON").
Proof.
  split; [repeat split; try (vm_compute; reflexivity); simpl; lia |].
  apply (unparsable_cache_text_reaches_the_log "access token: A1"
           "ccess token: A1" "a" true Samples.midnight (Rejected NetworkError));
    try (vm_compute; reflexivity).
  simpl; lia.
Defined.

(** X22.  A cache file whose content is not JSON does not make loading
    fail: the record is what it would be with no file at all.  On a freshly
    started server that is the empty record, so the state is
    [Unauthenticated] and [getAccessToken] ends in the authentication error
    without any network call, its only effects being the test for the file,
    the read and the logging of the exception raised by [JSON.parse]. *)
Theorem unparsable_cache_is_absent_cache
  (data : string) (wr : bool) (now : Z) (r : response) :
  JSON_parse data = None ->
  (forall w, tokenCache (loadTokenCache (set_disk (Content data) w))
             = tokenCache (loadTokenCache (set_disk NoFile w)))
  /\ tokenCache (loadTokenCache (initial (Content data) wr)) = VObj []
  /\ classify now (tokenCache (loadTokenCache (initial (Content data) wr)))
     = Some Unauthenticated
  /\ snd (getAccessToken now r (initial (Content data) wr))
     = Threw no_valid_authentication
  /\ trace (fst (getAccessToken now r (initial (Content data) wr)))
     = [FsExists; FsRead;
        ConsoleError "Failed to load token cache:" (SyntaxError data)].
Proof.
  intros P.
  assert (L := loadTokenCache_initial_unparsable data wr P).
  split.
  - intros w. rewrite (loadTokenCache_unparsable _ data), loadTokenCache_absent;
      auto.
  - unfold getAccessToken, getAccessToken_begin. rewrite L. simpl. auto.
Qed.

Lemma unparsable_cache_is_absent_cache_witness :
  JSON_parse "{ truncated" = None
  /\ snd (getAccessToken Samples.midnight (Rejected NetworkError)
            (initial (Content "{ truncated") true))
     = Threw no_valid_authentication.
Proof.
  split; [vm_compute; reflexivity |].
  apply (unparsable_cache_is_absent_cache "{ truncated" true Samples.midnight
           (Rejected NetworkError)).
  vm_compute; reflexivity.
Defined.

(** Claim C9.  When the cache file exists but does not parse,
    [loadTokenCache] leaves the record held in memory as it was; so a valid
    token held in memory is still returned by [getAccessToken] after the
    file has been corrupted. *)
Theorem unparsable_cache_keeps_memory
  (data : string) (now : Z) (r : response) (w : world) :
  JSON_parse data = None ->
  tokenCache (loadTokenCache (set_disk (Content data) w)) = tokenCache w
  /\ (classify now (tokenCache w) = Some Authenticated ->
      exists tok,
        get_prop (tokenCache w) "accessToken" = Some tok
        /\ snd (getAccessToken now r (set_disk (Content data) w)) = Returned tok).
Proof.
  intros P.
  assert (E : tokenCache (loadTokenCache (set_disk (Content data) w)) = tokenCache w).
  { now rewrite (loadTokenCache_unparsable _ data). }
  split; auto.
  intros A. rewrite <- E in A.
  destruct (authenticated_after_reload now r _ A) as [tok [G B]].
  exists tok. rewrite <- E. split; auto. now rewrite B.
Qed.

Lemma unparsable_cache_keeps_memory_witness :
  JSON_parse "{ truncated" = None
  /\ classify Samples.midnight (Samples.fresh (Samples.midnight + 3600000))
     = Some Authenticated
  /\ snd (getAccessToken Samples.midnight (Rejected NetworkError)
            (set_disk (Content "{ truncated")
               (mkWorld (Samples.fresh (Samples.midnight + 3600000)) NoFile true [])))
     = Returned (VStr "A1").
Proof.
  split; [vm_compute; reflexivity |].
  split; [vm_compute; reflexivity |].
  destruct (unparsable_cache_keeps_memory "{ truncated" Samples.midnight
              (Rejected NetworkError)
              (mkWorld (Samples.fresh (Samples.midnight + 3600000)) NoFile true []))
    as [_ K]; [vm_compute; reflexivity |].
  destruct K as [tok [G B]]; [vm_compute; reflexivity |].
  rewrite B. vm_compute in G. injection G as G. now rewrite G.
Defined.


(** *** Saving *)

Lemma saveTokenCache_tokenCache (w : world) :
  tokenCache (saveTokenCache w) = tokenCache w.
Proof.
  unfold saveTokenCache.
  destruct (JSON_stringify (tokenCache w));
    [destruct (writable w); [| destruct (torn w)] |]; reflexivity.
Qed.

Lemma saveTokenCache_disk (w : world) (data : string) :
  JSON_stringify (tokenCache w) = Some data -> writable w = true ->
  disk (saveTokenCache w) = Content data.
Proof.
  intros S W. unfold saveTokenCache. rewrite S, W. reflexivity.
Qed.

Lemma JSON_stringify_object (fields : list (string * value)) :
  exists data, JSON_stringify (VObj fields) = Some data.
Proof. unfold JSON_stringify. simpl. eexists. reflexivity. Qed.

(** *** A successful refresh (claim C6) *)

(** The property [k] of an object literal with the given fields. *)
Lemma get_prop_object (fields : list (string * value)) (k : string) :
  get_prop (VObj fields) k = Some (field fields k).
Proof. reflexivity. Qed.

(** Claim C6.  After a successful refresh the record is built anew from the
    result: its access token and its expiry are the result's, it has no
    other field, and its refresh token is the result's, except that when
    the result carries none the refresh token stored before is kept.  That
    record is returned from and written to the cache file as a whole. *)
Theorem refresh_replaces_record
  (now : Z) (w : world) (fields : list (string * value)) :
  classify now (tokenCache (loadTokenCache w)) = Some NeedsRefresh ->
  let field := field fields in
  let w1 := fst (getAccessToken now (Resolved (VObj fields)) w) in
  exists old_rt,
    get_prop (tokenCache (loadTokenCache w)) "refreshToken" = Some old_rt
    /\ tokenCache w1
       = VObj [("accessToken", field "accessToken");
               ("refreshToken", or_else (field "refreshToken") old_rt);
               ("expiresOn", field "expiresOn")]
    /\ (lookup "refreshToken" fields = None ->
        get_prop (tokenCache w1) "refreshToken" = Some old_rt)
    /\ (forall s, lookup "refreshToken" fields = Some (VStr s) -> s <> EmptyString ->
        get_prop (tokenCache w1) "refreshToken" = Some (VStr s))
    /\ snd (getAccessToken now (Resolved (VObj fields)) w)
       = Returned (field "accessToken")
    /\ (writable w = true ->
        exists data, JSON_stringify (tokenCache w1) = Some data
                     /\ disk w1 = Content data).
Proof.
  intros H field w1.
  destruct (begin_needs_refresh now w H) as [rt [G [T B]]].
  exists rt. split; auto.
  assert (R : refreshed_record (VObj fields)
                (tokenCache (emit [AcquireTokenByRefreshToken rt] (loadTokenCache w)))
              = Some (VObj [("accessToken", field "accessToken");
                            ("refreshToken", or_else (field "refreshToken") rt);
                            ("expiresOn", field "expiresOn")])).
  { unfold refreshed_record. rewrite !get_prop_object.
    unfold or_else. simpl tokenCache. fold field.
    destruct (truthy (field "refreshToken")); [reflexivity |].
    rewrite G. reflexivity. }
  assert (C : tokenCache w1
              = VObj [("accessToken", field "accessToken");
                      ("refreshToken", or_else (field "refreshToken") rt);
                      ("expiresOn", field "expiresOn")]).
  { unfold w1, getAccessToken. rewrite B. unfold getAccessToken_resume.
    rewrite R, get_prop_object. simpl fst.
    now rewrite saveTokenCache_tokenCache. }
  split; auto.
  split; [| split; [| split]].
  - intros N. rewrite C. simpl. unfold or_else, field, JS.field. rewrite N.
    reflexivity.
  - intros s L N. rewrite C. simpl. unfold or_else, field, JS.field. rewrite L.
    simpl.
    destruct (String.eqb s EmptyString) eqn:E.
    + apply String.eqb_eq in E. contradiction.
    + reflexivity.
  - unfold getAccessToken. rewrite B. unfold getAccessToken_resume.
    rewrite R, get_prop_object. reflexivity.
  - intros W. rewrite C.
    destruct (JSON_stringify_object
                [("accessToken", field "accessToken");
                 ("refreshToken", or_else (field "refreshToken") rt);
                 ("expiresOn", field "expiresOn")]) as [data S].
    exists data. split; auto.
    unfold w1, getAccessToken. rewrite B. unfold getAccessToken_resume.
    rewrite R, get_prop_object. simpl fst.
    apply saveTokenCache_disk; auto.
    simpl. now rewrite loadTokenCache_writable.
Qed.

Lemma refresh_replaces_record_witness :
  classify Samples.midnight (tokenCache (loadTokenCache Samples.expired))
  = Some NeedsRefresh
  /\ tokenCache (fst (getAccessToken Samples.midnight (Resolved Samples.renewed)
                        Samples.expired))
     = VObj [("accessToken", VStr "A2"); ("refreshToken", VStr "R1");
             ("expiresOn", VDate (Some (Samples.midnight + 3600000)))].
Proof.
  split; [vm_compute; reflexivity |].
  destruct (refresh_replaces_record Samples.midnight Samples.expired
              [("accessToken", VStr "A2");
               ("expiresOn", VDate (Some (Samples.midnight + 3600000)))])
    as [old_rt [G [C _]]]; [vm_compute; reflexivity |].
  vm_compute in G. injection G as G. subst old_rt. exact C.
Defined.

(** *** The authorization-code exchange (claim C10) *)

(** Claim C10.  A successful code exchange overwrites the record with the
    three fields of the result and nothing else: whatever was stored
    before, refresh token included, is gone; a result without a refresh
    token leaves the stored refresh token absent.  The new record is
    written to the cache file. *)
Theorem code_exchange_overwrites_record
  (code : string) (u : url_response) (w : world) (fields : list (string * value)) :
  code <> EmptyString ->
  let field := field fields in
  let w1 := fst (outlook_auth (Some code) u (Resolved (VObj fields)) w) in
  tokenCache w1
  = VObj [("accessToken", field "accessToken");
          ("refreshToken", field "refreshToken");
          ("expiresOn", field "expiresOn")]
  /\ (lookup "refreshToken" fields = None ->
      get_prop (tokenCache w1) "refreshToken" = Some VUndefined)
  /\ snd (outlook_auth (Some code) u (Resolved (VObj fields)) w)
     = Returned (text_content
                   "Authentication successful! You can now use other Outlook tools.")
  /\ (writable w = true ->
      exists data, JSON_stringify (tokenCache w1) = Some data
                   /\ disk w1 = Content data).
Proof.
  intros N field w1.
  assert (E : String.eqb code EmptyString = false).
  { destruct (String.eqb code EmptyString) eqn:E; auto.
    apply String.eqb_eq in E. contradiction. }
  assert (C : tokenCache w1
              = VObj [("accessToken", field "accessToken");
                      ("refreshToken", field "refreshToken");
                      ("expiresOn", field "expiresOn")]).
  { unfold w1, outlook_auth. rewrite E. unfold outlook_auth_resume_code.
    unfold authorized_record. rewrite !get_prop_object. simpl fst.
    now rewrite saveTokenCache_tokenCache. }
  split; auto.
  split; [| split].
  - intros L. rewrite C. simpl. unfold field, JS.field. rewrite L. reflexivity.
  - unfold outlook_auth. rewrite E. reflexivity.
  - intros W. rewrite C.
    destruct (JSON_stringify_object
                [("accessToken", field "accessToken");
                 ("refreshToken", field "refreshToken");
                 ("expiresOn", field "expiresOn")]) as [data S].
    exists data. split; auto.
    unfold w1, outlook_auth. rewrite E. unfold outlook_auth_resume_code.
    unfold authorized_record. rewrite !get_prop_object. simpl fst.
    apply saveTokenCache_disk; auto.
    simpl. rewrite E. exact W.
Qed.

Lemma code_exchange_overwrites_record_witness :
  "validcode" <> EmptyString
  /\ get_prop (tokenCache (fst (outlook_auth (Some "validcode")
                                  (UrlRejected NetworkError)
                                  (Resolved Samples.renewed) Samples.expired)))
       "refreshToken" = Some VUndefined.
Proof.
  split; [discriminate |].
  apply (code_exchange_overwrites_record "validcode" (UrlRejected NetworkError)
           Samples.expired
           [("accessToken", VStr "A2");
            ("expiresOn", VDate (Some (Samples.midnight + 3600000)))]).
  - discriminate.
  - reflexivity.
Defined.


(** *** Concurrent calls (claim C1) *)

Lemma call_in_needs_refresh (now : Z) (sys : system) :
  classify now (tokenCache (loadTokenCache (state sys))) = Some NeedsRefresh ->
  exists rt,
    handle (CallGetAccessToken now) sys
    = mkSystem (emit [AcquireTokenByRefreshToken rt] (loadTokenCache (state sys)))
        (waiting sys ++ [(next sys, RefreshWait)]) (finished sys) (S (next sys)).
Proof.
  intros H. destruct (begin_needs_refresh now (state sys) H) as [rt [_ [_ B]]].
  exists rt. unfold handle. rewrite B. reflexivity.
Qed.

(** Calls made one after the other, none of them answered yet: each one
    finds the state [NeedsRefresh], sends its own request and is
    suspended. *)
Lemma calls_all_suspend (nows : list Z) : forall sys : system,
  Forall (fun now => classify now (tokenCache (loadTokenCache (state sys)))
                     = Some NeedsRefresh) nows ->
  let sys' := run (map CallGetAccessToken nows) sys in
  refresh_calls (state sys') = (refresh_calls (state sys) + List.length nows)%nat
  /\ waiting sys' = (waiting sys ++ refresh_waiters (next sys) (List.length nows))%list
  /\ finished sys' = finished sys
  /\ disk (state sys') = disk (state sys)
  /\ (nows <> [] -> tokenCache (state sys') = tokenCache (loadTokenCache (state sys))).
Proof.
  induction nows as [|now nows IH]; intros sys F.
  - simpl. unfold refresh_waiters. simpl. rewrite app_nil_r.
    repeat split; auto; try lia. intros N. contradiction.
  - inversion F as [|? ? Hnow Hrest]; subst.
    destruct (call_in_needs_refresh now sys Hnow) as [rt E].
    cbv zeta.
    change (run (map CallGetAccessToken (now :: nows)) sys)
      with (run (map CallGetAccessToken nows) (handle (CallGetAccessToken now) sys)).
    rewrite E.
    set (sys1 := mkSystem _ _ _ _).
    assert (L : tokenCache (loadTokenCache (state sys1))
                = tokenCache (loadTokenCache (state sys))).
    { apply loadTokenCache_same; [apply loadTokenCache_disk | reflexivity]. }
    assert (F1 : Forall (fun now => classify now (tokenCache (loadTokenCache (state sys1)))
                                    = Some NeedsRefresh) nows).
    { rewrite L. exact Hrest. }
    destruct (IH sys1 F1) as [R [W [Fi [D T]]]].
    cbv zeta in *. rewrite R, W, Fi, D.
    repeat split.
    + unfold sys1. simpl. rewrite refresh_calls_emit, refresh_calls_load. simpl. lia.
    + unfold sys1. simpl. rewrite <- app_assoc. reflexivity.
    + unfold sys1. simpl. apply loadTokenCache_disk.
    + intros _. destruct nows as [|now' nows'].
      * reflexivity.
      * rewrite T by discriminate. exact L.
Qed.

(** Claim C1 as stated fails: two calls made while the state is
    [NeedsRefresh] send two requests to the provider, both outstanding at
    once, and the two callers get the outcomes of their own requests, here
    a token for one and a failure for the other. *)
Lemma two_calls_two_exchanges :
  let sys := run [CallGetAccessToken Samples.midnight;
                  CallGetAccessToken Samples.midnight] (boot Samples.expired) in
  classify Samples.midnight (tokenCache (loadTokenCache Samples.expired))
  = Some NeedsRefresh
  /\ refresh_calls (state sys) = 2%nat
  /\ waiting sys = [(0%nat, RefreshWait); (1%nat, RefreshWait)]
  /\ finished (run [Settle 0 (Resolved Samples.renewed);
                    Settle 1 (Rejected NetworkError)] sys)
     = [(1%nat, Threw no_valid_authentication); (0%nat, Returned (VStr "A2"))].
Proof. vm_compute. repeat split. Qed.

(** *** What each caller is answered *)

Lemma refresh_calls_assign (v : value) (w : world) :
  refresh_calls (assign v w) = refresh_calls w.
Proof. reflexivity. Qed.

Lemma refresh_calls_write (data : string) (w : world) :
  refresh_calls (write data w) = refresh_calls w.
Proof. reflexivity. Qed.

Lemma refresh_calls_save (w : world) :
  refresh_calls (saveTokenCache w) = refresh_calls w.
Proof.
  unfold saveTokenCache.
  destruct (JSON_stringify (tokenCache w));
    [destruct (writable w); [| destruct (torn w)] |];
    rewrite ?refresh_calls_write, refresh_calls_emit; simpl; lia.
Qed.

(** A value with one property has every property the server reads. *)
Lemma get_prop_total (v x : value) (k k' : string) :
  get_prop v k = Some x -> exists y, get_prop v k' = Some y.
Proof. destruct v; simpl; intros H; try discriminate; eauto. Qed.

(** While the record in memory is an object, the call that is answered gets
    what its own answer is worth, whatever the record holds by then; the
    record is an object afterwards too, and no request is sent. *)
Lemma resume_outcome (r : response) (w : world) (rt : value) :
  get_prop (tokenCache w) "refreshToken" = Some rt ->
  snd (getAccessToken_resume r w) = refresh_outcome r
  /\ (exists rt', get_prop (tokenCache (fst (getAccessToken_resume r w)))
                    "refreshToken" = Some rt')
  /\ refresh_calls (fst (getAccessToken_resume r w)) = refresh_calls w.
Proof.
  intros G. unfold getAccessToken_resume, refresh_outcome.
  destruct r as [result|err].
  - unfold refreshed_record.
    destruct (get_prop result "accessToken") as [a|] eqn:A.
    + destruct (get_prop_total result a "accessToken" "refreshToken" A) as [x X].
      destruct (get_prop_total result a "accessToken" "expiresOn" A) as [e E].
      rewrite X, E.
      assert (R : exists rt1,
                 (if truthy x then Some x
                  else get_prop (tokenCache w) "refreshToken") = Some rt1).
      { destruct (truthy x); eauto. }
      destruct R as [rt1 R]. rewrite R. cbn [fst snd].
      split; [reflexivity |]. split.
      * rewrite saveTokenCache_tokenCache. cbn [assign tokenCache].
        eexists. reflexivity.
      * rewrite refresh_calls_save. apply refresh_calls_assign.
    + cbn [fst snd]. split; [reflexivity |]. split; [eauto |].
      rewrite refresh_calls_emit. simpl. lia.
  - cbn [fst snd]. split; [reflexivity |]. split; [eauto |].
    rewrite refresh_calls_emit. simpl. lia.
Qed.

Lemma find_waiter (id : nat) (l : list nat) :
  In id l -> find_task id (map (fun i => (i, RefreshWait)) l) = Some RefreshWait.
Proof.
  induction l as [|i l IH]; simpl; [tauto |].
  intros [E|I].
  - subst. now rewrite Nat.eqb_refl.
  - destruct (Nat.eqb id i); auto.
Qed.

Lemma filter_absent (id : nat) (l : list nat) :
  ~ In id l -> filter (fun i => negb (Nat.eqb i id)) l = l.
Proof.
  induction l as [|i l IH]; simpl; auto.
  intros N. destruct (Nat.eqb i id) eqn:E.
  - apply Nat.eqb_eq in E. subst. tauto.
  - simpl. f_equal. apply IH. tauto.
Qed.

Lemma remove_waiter (id : nat) (l : list nat) :
  NoDup l ->
  remove_task id (map (fun i => (i, RefreshWait)) l)
  = map (fun i => (i, RefreshWait)) (filter (fun i => negb (Nat.eqb i id)) l).
Proof.
  induction l as [|i l IH]; intros N; simpl; auto.
  inversion N as [|? ? Ni Nl]; subst.
  rewrite (Nat.eqb_sym id i).
  destruct (Nat.eqb i id) eqn:E; simpl.
  - apply Nat.eqb_eq in E. subst. now rewrite filter_absent.
  - f_equal. auto.
Qed.

Lemma filter_all (l : list nat) : filter (fun _ => true) l = l.
Proof. induction l as [|i l IH]; simpl; [reflexivity | now f_equal]. Qed.

Lemma filter_twice (f g : nat -> bool) (l : list nat) :
  filter g (filter f l) = filter (fun i => f i && g i) l.
Proof.
  induction l as [|i l IH]; simpl; auto.
  destruct (f i); simpl; [destruct (g i) |]; now rewrite IH.
Qed.

(** Answers to calls that wait, one answer per call, in any order: every
    call named gets what its own answer is worth, the others go on
    waiting, and no request is sent. *)
Lemma answers_are_delivered (answers : list (nat * response)) :
  forall (sys : system) (l : list nat),
  waiting sys = map (fun i => (i, RefreshWait)) l -> NoDup l ->
  NoDup (map fst answers) -> (forall a, In a answers -> In (fst a) l) ->
  (exists rt, get_prop (tokenCache (state sys)) "refreshToken" = Some rt) ->
  let sys' := run (map answer answers) sys in
  finished sys'
  = (rev (map (fun a => (fst a, refresh_outcome (snd a))) answers)
     ++ finished sys)%list
  /\ waiting sys'
     = map (fun i => (i, RefreshWait))
         (filter (fun i => negb (existsb (Nat.eqb i) (map fst answers))) l)
  /\ refresh_calls (state sys') = refresh_calls (state sys).
Proof.
  induction answers as [|[id r] answers IH]; intros sys l W N D I [rt G].
  - simpl. rewrite filter_all. repeat split; auto.
  - cbv zeta.
    change (run (map answer ((id, r) :: answers)) sys)
      with (run (map answer answers) (handle (Settle id r) sys)).
    destruct (resume_outcome r (state sys) rt G) as [O [G1 C1]].
    assert (Il : In id l) by (apply (I (id, r)); left; reflexivity).
    assert (E : handle (Settle id r) sys
                = mkSystem (fst (getAccessToken_resume r (state sys)))
                    (map (fun i => (i, RefreshWait))
                       (filter (fun i => negb (Nat.eqb i id)) l))
                    ((id, refresh_outcome r) :: finished sys) (next sys)).
    { unfold handle. rewrite W, (find_waiter id l Il), (remove_waiter id l N).
      rewrite <- O. destruct (getAccessToken_resume r (state sys)); reflexivity. }
    rewrite E.
    simpl in D. inversion D as [|? ? Di Da]; subst.
    specialize (IH (mkSystem (fst (getAccessToken_resume r (state sys)))
                      (map (fun i => (i, RefreshWait))
                         (filter (fun i => negb (Nat.eqb i id)) l))
                      ((id, refresh_outcome r) :: finished sys) (next sys))
                  (filter (fun i => negb (Nat.eqb i id)) l)).
    cbv zeta in IH. cbn [state waiting finished] in IH.
    destruct IH as [F [Wa C]]; auto.
    + now apply NoDup_filter.
    + intros a Ia. apply filter_In. split; [apply I; right; exact Ia |].
      apply negb_true_iff, Nat.eqb_neq. intros Eq. apply Di.
      rewrite <- Eq. now apply in_map.
    + rewrite F, Wa, C, C1. split; [| split; [| reflexivity]].
      * cbn [map rev fst snd]. now rewrite <- app_assoc.
      * f_equal. rewrite filter_twice. apply filter_ext. intros i.
        cbn [map fst existsb]. now rewrite negb_orb.
Qed.

(** Claim C1, amended.  If N calls of [getAccessToken] are made while the
    state is [NeedsRefresh] and before any of them is answered, each call
    sends its own refresh request: N requests, all outstanding at once.
    As the provider answers them, in any order and some of them or all,
    every caller that is answered gets the outcome of its own request and
    of no other, the access token of its result or the authentication
    error; the callers not yet answered go on waiting, and no further
    request is sent. *)
Theorem concurrent_calls_refresh_separately
  (nows : list Z) (answers : list (nat * response)) (w : world) :
  Forall (fun now => classify now (tokenCache (loadTokenCache w))
                     = Some NeedsRefresh) nows ->
  NoDup (map fst answers) ->
  Forall (fun a => (fst a < List.length nows)%nat) answers ->
  let called := run (map CallGetAccessToken nows) (boot w) in
  let sys := run (map answer answers) called in
  refresh_calls (state called) = (refresh_calls w + List.length nows)%nat
  /\ waiting called = refresh_waiters 0 (List.length nows)
  /\ finished called = []
  /\ finished sys = rev (map (fun a => (fst a, refresh_outcome (snd a))) answers)
  /\ waiting sys = unanswered (List.length nows) (map fst answers)
  /\ refresh_calls (state sys) = (refresh_calls w + List.length nows)%nat.
Proof.
  intros F D B called sys.
  destruct (calls_all_suspend nows (boot w) F) as [R [W [Fi [_ T]]]].
  fold called in R, W, Fi, T. simpl in R, W, Fi, T.
  split; [exact R |]. split; [exact W |]. split; [exact Fi |].
  destruct answers as [|a answers'].
  { unfold sys. simpl. rewrite Fi, W, R. repeat split.
    unfold unanswered, refresh_waiters. simpl. now rewrite filter_all. }
  assert (G : exists rt, get_prop (tokenCache (state called)) "refreshToken" = Some rt).
  { destruct nows as [|now nows'].
    - inversion B as [|? ? L _]; subst. simpl in L. lia.
    - inversion F as [|? ? Hnow _]; subst.
      apply classify_needs_refresh in Hnow as [_ [rt [G _]]].
      exists rt. rewrite T by discriminate. exact G. }
  destruct (answers_are_delivered (a :: answers') called (seq 0 (List.length nows)))
    as [Fs [Ws Cs]]; auto.
  - apply seq_NoDup.
  - intros x Ix. apply in_seq. rewrite Forall_forall in B.
    specialize (B x Ix). lia.
  - fold sys in Fs, Ws, Cs. rewrite Fs, Ws, Cs, Fi, R, app_nil_r.
    repeat split.
Qed.

Lemma concurrent_calls_refresh_separately_witness :
  (Forall (fun now => classify now (tokenCache (loadTokenCache Samples.expired))
                      = Some NeedsRefresh)
     [Samples.midnight; Samples.midnight + 1; Samples.midnight + 2]
   /\ NoDup [2%nat; 0%nat; 1%nat])
  /\ finished
       (run [Settle 2 (Resolved Samples.renewed);
             Settle 0 (Rejected InvalidGrant);
             Settle 1 (Resolved (VObj [("accessToken", VStr "A3")]))]
          (run [CallGetAccessToken Samples.midnight;
                CallGetAccessToken (Samples.midnight + 1);
                CallGetAccessToken (Samples.midnight + 2)]
             (boot Samples.expired)))
     = [(1%nat, Returned (VStr "A3"));
        (0%nat, Threw no_valid_authentication);
        (2%nat, Returned (VStr "A2"))].
Proof.
  assert (F : Forall (fun now => classify now (tokenCache (loadTokenCache Samples.expired))
                                 = Some NeedsRefresh)
                [Samples.midnight; Samples.midnight + 1; Samples.midnight + 2]).
  { repeat constructor; vm_compute; reflexivity. }
  assert (D : NoDup [2%nat; 0%nat; 1%nat]).
  { repeat constructor; simpl; intuition discriminate. }
  split; [split; [exact F | exact D] |].
  apply (concurrent_calls_refresh_separately
           [Samples.midnight; Samples.midnight + 1; Samples.midnight + 2]
           [(2%nat, Resolved Samples.renewed);
            (0%nat, Rejected InvalidGrant);
            (1%nat, Resolved (VObj [("accessToken", VStr "A3")]))]
           Samples.expired F D).
  repeat constructor.
Defined.


(** *** Saving, then loading (claim C8) *)

Lemma toISOString_not_empty (t : Z) :
  String.eqb (toISOString t) EmptyString = false.
Proof.
  unfold toISOString.
  destruct (civil_from_days (t / msPerDay)) as [[y m] d].
  destruct (year_string y); reflexivity.
Qed.

Lemma persisted_truthy (e : value) : truthy (persisted e) = truthy e.
Proof.
  destruct e as [| | | | |[t|]| |]; try reflexivity.
  simpl. now rewrite toISOString_not_empty.
Qed.

Lemma persisted_time_value (e : value) :
  expiry_field e = true -> time_value (persisted e) = time_value e.
Proof.
  destruct e as [| | | | |[t|]| |]; try reflexivity; try discriminate.
  simpl. intros H. apply Z.leb_le in H. now apply Date_parse_toISOString.
Qed.

(** The text written for a record is read back as a record with the same
    three fields, a [Date] having become its ISO string; writing what was
    read gives the same text again. *)
Lemma JSON_roundtrip_credential (a r e : value) :
  token_field a = true -> token_field r = true -> expiry_field e = true ->
  exists text v,
    JSON_stringify (credential a r e) = Some text
    /\ JSON_parse text = Some v
    /\ get_prop v "accessToken" = Some a
    /\ get_prop v "refreshToken" = Some r
    /\ get_prop v "expiresOn" = Some (persisted e)
    /\ JSON_stringify v = Some text.
Proof.
  intros Ha Hr He.
  exists (bracket "{" "}" EmptyString
            (map member_text
               (string_members [("accessToken", a); ("refreshToken", r);
                                ("expiresOn", e)]))).
  exists (VObj (fold_left add_member
                  (string_members [("accessToken", a); ("refreshToken", r);
                                   ("expiresOn", e)]) [])).
  split; [| split; [apply JSON_parse_flat |]].
  - destruct a; try discriminate; destruct r; try discriminate;
      destruct e as [| | | | |[t|]| |]; try discriminate; reflexivity.
  - destruct a; try discriminate; destruct r; try discriminate;
      destruct e as [| | | | |[t|]| |]; try discriminate;
      repeat split; reflexivity.
Qed.


Lemma save_then_load (v v' : value) (text : string) (w : world) :
  JSON_stringify v = Some text -> JSON_parse text = Some v' ->
  writable w = true ->
  tokenCache (loadTokenCache (saveTokenCache (assign v w))) = v'.
Proof.
  intros S P W. unfold saveTokenCache.
  change (tokenCache (assign v w)) with v. rewrite S.
  change (writable (assign v w)) with (writable w). rewrite W.
  unfold loadTokenCache. simpl. rewrite P. reflexivity.
Qed.




(** *** The refreshed record on disk, and a whole session *)

(** After a successful refresh the file holds the new record: a reload
    reads the refresh token that was kept or replaced in memory. *)
Lemma refreshed_record_survives_reload
  (now : Z) (w : world) (fields : list (string * value)) (old_rt : value) :
  classify now (tokenCache (loadTokenCache w)) = Some NeedsRefresh ->
  get_prop (tokenCache (loadTokenCache w)) "refreshToken" = Some old_rt ->
  writable w = true ->
  token_field (field fields "accessToken") = true ->
  token_field (or_else (field fields "refreshToken") old_rt) = true ->
  expiry_field (field fields "expiresOn") = true ->
  get_prop
    (tokenCache
       (loadTokenCache (fst (getAccessToken now (Resolved (VObj fields)) w))))
    "refreshToken"
  = Some (or_else (field fields "refreshToken") old_rt).
Proof.
  intros H G W Ha Hr He.
  destruct (begin_needs_refresh now w H) as [rt [G' [_ B]]].
  rewrite G in G'. injection G' as <-.
  assert (R : refreshed_record (VObj fields)
                (tokenCache (emit [AcquireTokenByRefreshToken old_rt] (loadTokenCache w)))
              = Some (credential (field fields "accessToken")
                        (or_else (field fields "refreshToken") old_rt)
                        (field fields "expiresOn"))).
  { unfold refreshed_record. rewrite !get_prop_object.
    unfold or_else. simpl tokenCache.
    destruct (truthy (field fields "refreshToken")); [reflexivity |].
    rewrite G. reflexivity. }
  unfold getAccessToken. rewrite B. unfold getAccessToken_resume.
  rewrite R, get_prop_object. simpl fst.
  destruct (JSON_roundtrip_credential _ _ _ Ha Hr He)
    as [text [v [S [P [_ [Gr _]]]]]].
  rewrite (save_then_load _ v text); auto.
  simpl. now rewrite loadTokenCache_writable.
Qed.

(** The session of the specification's end-to-end scenario: a fresh server
    refuses, hands out the consent URL, takes the code, stores the record
    and from then on answers from the cache; no refresh is ever asked
    for. *)
Example first_authorization_session :
  let result := credential (VStr "A1") (VStr "R1")
                  (VDate (Some (Samples.midnight + 3600000))) in
  let sys := run [CallGetAccessToken Samples.midnight;
                  CallOutlookAuth None;
                  SettleUrl 1 (UrlResolved "https://login.example/authorize");
                  CallOutlookAuth (Some "validcode");
                  Settle 2 (Resolved result);
                  CallGetAccessToken (Samples.midnight + 1000)]
               (boot (initial NoFile true)) in
  map fst (finished sys) = [3%nat; 2%nat; 1%nat; 0%nat]
  /\ find (fun p => Nat.eqb (fst p) 0) (finished sys)
     = Some (0%nat, Threw no_valid_authentication)
  /\ find (fun p => Nat.eqb (fst p) 3) (finished sys)
     = Some (3%nat, Returned (VStr "A1"))
  /\ refresh_calls (state sys) = 0%nat
  /\ disk (state sys) = Content (Samples.cache_text result)
  /\ waiting sys = [].
Proof. vm_compute. repeat split. Qed.

End ServerFacts.

(* ================================================================== *)
(** ** Further properties of the token cache *)

Module TokenFacts.
Import JS DateTime JSON Server CodecFacts ServerFacts.

Lemma truthy_nonempty (a : string) : a <> EmptyString -> truthy (VStr a) = true.
Proof.
  intros N. simpl. destruct (String.eqb a EmptyString) eqn:E; auto.
  apply String.eqb_eq in E. contradiction.
Qed.

(** X1.  For a record, whatever its other properties and their order,
    with a non-empty access token and an expiry that denotes the instant
    [t], the clock alone decides what a call does: before [t] the token is
    returned from the cache; from [t] on the call asks for a refresh when
    a refresh token is held, and fails with the authentication error when
    none is, as with the record of two properties that is read back when
    the provider gave no refresh token. *)
Theorem expiry_decides_the_path
  (now t : Z) (a : string) (rt e : value) (r : response) (w : world) :
  get_prop (tokenCache (loadTokenCache w)) "accessToken" = Some (VStr a) ->
  get_prop (tokenCache (loadTokenCache w)) "expiresOn" = Some e ->
  get_prop (tokenCache (loadTokenCache w)) "refreshToken" = Some rt ->
  a <> EmptyString -> truthy e = true -> time_value e = Some t ->
  (now < t -> getAccessToken now r w = (loadTokenCache w, Returned (VStr a)))
  /\ (t <= now -> truthy rt = true ->
      getAccessToken_begin now w
      = (emit [AcquireTokenByRefreshToken rt] (loadTokenCache w), Suspended))
  /\ (t <= now -> truthy rt = false ->
      getAccessToken_begin now w
      = (loadTokenCache w, Finished (Threw no_valid_authentication))).
Proof.
  intros A E G N Te Tv.
  assert (V : has_valid_token now (tokenCache (loadTokenCache w))
              = Some (now <? t)).
  { unfold has_valid_token. rewrite A, (truthy_nonempty a N), E, Te.
    unfold date_after. now rewrite Tv. }
  unfold getAccessToken, getAccessToken_begin. rewrite V, G, A.
  repeat split.
  - intros L. apply Z.ltb_lt in L. now rewrite L.
  - intros L T. apply Z.ltb_ge in L. now rewrite L, T.
  - intros L T. apply Z.ltb_ge in L. now rewrite L, T.
Qed.

Lemma expiry_decides_the_path_witness :
  let w := fst (outlook_auth (Some "code") (UrlRejected NetworkError)
                  (Resolved Samples.renewed) (initial NoFile true)) in
  (tokenCache (loadTokenCache w)
   = VObj [("accessToken", VStr "A2");
           ("expiresOn", VStr "2024-01-01T01:00:00.000Z")]
   /\ get_prop (tokenCache (loadTokenCache w)) "refreshToken" = Some VUndefined
   /\ time_value (VStr "2024-01-01T01:00:00.000Z")
      = Some (Samples.midnight + 3600000))
  /\ getAccessToken_begin (Samples.midnight + 3600000) w
     = (loadTokenCache w, Finished (Threw no_valid_authentication)).
Proof.
  intros w.
  split; [repeat split; vm_compute; reflexivity |].
  apply (expiry_decides_the_path (Samples.midnight + 3600000)
           (Samples.midnight + 3600000) "A2" VUndefined
           (VStr "2024-01-01T01:00:00.000Z") (Rejected NetworkError) w);
    try (vm_compute; reflexivity); discriminate.
Defined.


Lemma loadTokenCache_parsed (w : world) (data : string) (v : value) :
  disk w = Content data -> JSON_parse data = Some v ->
  tokenCache (loadTokenCache w) = v.
Proof. intros D P. unfold loadTokenCache. rewrite D, P. reflexivity. Qed.

Lemma refreshed_record_object
  (fields : list (string * value)) (old rt : value) :
  get_prop old "refreshToken" = Some rt ->
  refreshed_record (VObj fields) old
  = Some (credential (field fields "accessToken")
            (or_else (field fields "refreshToken") rt)
            (field fields "expiresOn")).
Proof.
  intros G. unfold refreshed_record. rewrite !get_prop_object. unfold or_else.
  destruct (truthy (field fields "refreshToken")); [reflexivity |].
  rewrite G. reflexivity.
Qed.

Lemma loadTokenCache_torn (w : world) : torn (loadTokenCache w) = torn w.
Proof.
  unfold loadTokenCache.
  destruct (disk w) as [| |data]; simpl; auto.
  destruct (JSON_parse data); simpl; auto.
Qed.

(** X2.  When the cache file holds a parsable record and the write of a
    refreshed record fails, the call still returns the new access token and
    logs the failure, and the new record is the one in memory.  What the
    next call does depends on what the failed write left.  If the file
    could not be opened it keeps the old record: the next call reloads that
    record over the new one and asks the provider for a refresh again.  If
    the write failed after the file was opened, the file holds the
    beginning of the new text; when that does not parse, loading leaves the
    new record in memory, and a call made while its token is valid returns
    that token without asking the provider. *)
Theorem failed_save_and_the_next_call
  (now : Z) (w : world) (data : string) (v : value)
  (fields : list (string * value)) :
  disk w = Content data -> JSON_parse data = Some v ->
  classify now v = Some NeedsRefresh -> writable w = false ->
  let w1 := fst (getAccessToken now (Resolved (VObj fields)) w) in
  exists text,
    JSON_stringify (tokenCache w1) = Some text
    /\ snd (getAccessToken now (Resolved (VObj fields)) w)
       = Returned (field fields "accessToken")
    /\ get_prop (tokenCache w1) "accessToken" = Some (field fields "accessToken")
    /\ In (ConsoleError "Failed to save token cache:" IOError) (trace w1)
    /\ refresh_calls w1 = S (refresh_calls w)
    /\ (torn w = None ->
        disk w1 = Content data
        /\ tokenCache (loadTokenCache w1) = v
        /\ forall now', now <= now' ->
             snd (getAccessToken_begin now' w1) = Suspended
             /\ refresh_calls (fst (getAccessToken_begin now' w1))
                = S (S (refresh_calls w)))
    /\ (forall n, torn w = Some n ->
        disk w1 = Content (substring 0 n text)
        /\ (JSON_parse (substring 0 n text) = None ->
            tokenCache (loadTokenCache w1) = tokenCache w1
            /\ forall now' r,
                 classify now' (tokenCache w1) = Some Authenticated ->
                 snd (getAccessToken now' r w1)
                 = Returned (field fields "accessToken")
                 /\ refresh_calls (fst (getAccessToken now' r w1))
                    = S (refresh_calls w))).
Proof.
  intros D P H W w1.
  assert (L : tokenCache (loadTokenCache w) = v)
    by (apply (loadTokenCache_parsed w data); auto).
  rewrite <- L in H.
  destruct (begin_needs_refresh now w H) as [rt [G [T B]]].
  assert (R := refreshed_record_object fields _ rt G).
  set (record := credential (field fields "accessToken")
                   (or_else (field fields "refreshToken") rt)
                   (field fields "expiresOn")) in *.
  set (w0 := assign record (emit [AcquireTokenByRefreshToken rt] (loadTokenCache w))).
  assert (E : getAccessToken now (Resolved (VObj fields)) w
              = (saveTokenCache w0, Returned (field fields "accessToken"))).
  { unfold getAccessToken. rewrite B. unfold getAccessToken_resume.
    change (tokenCache (emit [AcquireTokenByRefreshToken rt] (loadTokenCache w)))
      with (tokenCache (loadTokenCache w)).
    rewrite R, get_prop_object. reflexivity. }
  destruct (JSON_stringify_object
              [("accessToken", field fields "accessToken");
               ("refreshToken", or_else (field fields "refreshToken") rt);
               ("expiresOn", field fields "expiresOn")]) as [text St].
  fold (credential (field fields "accessToken")
          (or_else (field fields "refreshToken") rt)
          (field fields "expiresOn")) in St. fold record in St.
  assert (W0 : writable w0 = false).
  { unfold w0. simpl. now rewrite loadTokenCache_writable. }
  assert (T0 : torn w0 = torn w).
  { unfold w0. simpl. apply loadTokenCache_torn. }
  assert (D0 : disk w0 = Content data).
  { unfold w0. simpl. now rewrite loadTokenCache_disk. }
  assert (C0 : refresh_calls w0 = S (refresh_calls w)).
  { unfold w0. rewrite refresh_calls_assign, refresh_calls_emit, refresh_calls_load.
    simpl. lia. }
  assert (K : tokenCache w1 = record).
  { unfold w1. rewrite E. cbn [fst]. now rewrite saveTokenCache_tokenCache. }
  assert (C1 : refresh_calls w1 = S (refresh_calls w)).
  { unfold w1. rewrite E. cbn [fst]. now rewrite refresh_calls_save. }
  assert (X : saveTokenCache w0
              = match torn w with
                | None =>
                    emit [FsWrite text;
                          ConsoleError "Failed to save token cache:" IOError] w0
                | Some n =>
                    write (substring 0 n text)
                      (emit [FsWrite text;
                             ConsoleError "Failed to save token cache:" IOError] w0)
                end).
  { unfold saveTokenCache.
    change (tokenCache w0) with record. rewrite St, W0, T0.
    destruct (torn w); reflexivity. }
  exists text.
  split; [now rewrite K |].
  split; [now rewrite E |].
  split; [now rewrite K |].
  split.
  { unfold w1. rewrite E. cbn [fst]. rewrite X.
    destruct (torn w); simpl; apply in_or_app; right; simpl; auto. }
  split; [exact C1 |].
  split.
  - intros N.
    assert (D1 : disk w1 = Content data).
    { unfold w1. rewrite E. cbn [fst]. rewrite X, N. exact D0. }
    assert (L1 : tokenCache (loadTokenCache w1) = v)
      by (apply (loadTokenCache_parsed w1 data); auto).
    split; [exact D1 |]. split; [exact L1 |].
    intros now' Le.
    assert (N1 : classify now' (tokenCache (loadTokenCache w1)) = Some NeedsRefresh).
    { rewrite L1, <- L. eapply classify_needs_refresh_later; eauto. }
    destruct (begin_needs_refresh now' w1 N1) as [rt' [_ [_ B']]].
    rewrite B'. split; [reflexivity |]. cbn [fst].
    rewrite refresh_calls_emit, refresh_calls_load, C1. simpl. lia.
  - intros n N.
    assert (D1 : disk w1 = Content (substring 0 n text)).
    { unfold w1. rewrite E. cbn [fst]. rewrite X, N. reflexivity. }
    split; [exact D1 |].
    intros U.
    assert (L1 : tokenCache (loadTokenCache w1) = tokenCache w1)
      by (apply (loadTokenCache_unparsable w1 (substring 0 n text)); auto).
    split; [exact L1 |].
    intros now' r A. rewrite <- L1 in A.
    destruct (authenticated_after_reload now' r w1 A) as [tok [Gt Bt]].
    rewrite Bt. cbn [fst snd]. rewrite refresh_calls_load, C1.
    split; [| reflexivity].
    rewrite L1, K in Gt. unfold record, credential in Gt.
    rewrite get_prop_object in Gt. injection Gt as Gt. now rewrite <- Gt.
Qed.

Lemma failed_save_and_the_next_call_witness :
  let w := set_torn (Some 0%nat)
             (initial (Content (Samples.cache_text
                                  (Samples.stored "2024-01-01T00:00:00.000Z")))
                false) in
  let w1 := fst (getAccessToken Samples.midnight (Resolved Samples.renewed) w) in
  (disk w = Content (Samples.cache_text (Samples.stored "2024-01-01T00:00:00.000Z"))
   /\ JSON_parse (Samples.cache_text (Samples.stored "2024-01-01T00:00:00.000Z"))
      = Some (Samples.stored "2024-01-01T00:00:00.000Z")
   /\ classify Samples.midnight (Samples.stored "2024-01-01T00:00:00.000Z")
      = Some NeedsRefresh
   /\ writable w = false)
  /\ disk w1 = Content EmptyString
  /\ snd (getAccessToken (Samples.midnight + 1) (Rejected NetworkError) w1)
     = Returned (VStr "A2").
Proof.
  intros w w1.
  split; [repeat split; vm_compute; reflexivity |].
  destruct (failed_save_and_the_next_call Samples.midnight w
              (Samples.cache_text (Samples.stored "2024-01-01T00:00:00.000Z"))
              (Samples.stored "2024-01-01T00:00:00.000Z")
              [("accessToken", VStr "A2");
               ("expiresOn", VDate (Some (Samples.midnight + 3600000)))])
    as [text [S [_ [_ [_ [_ [_ K]]]]]]]; try (vm_compute; reflexivity).
  destruct (K 0%nat) as [D1 N]; [vm_compute; reflexivity |].
  split; [refine (eq_trans D1 _); destruct text; reflexivity |].
  destruct N as [_ N]; [destruct text; vm_compute; reflexivity |].
  destruct (N (Samples.midnight + 1) (Rejected NetworkError)) as [O _];
    [vm_compute; reflexivity | exact O].
Defined.


(** X3.  A cache file whose content is JSON but not an object: with
    [null] every call ends in a TypeError; with a number, a string, a
    boolean or an array the server behaves as with an empty record and
    every call ends in the authentication error.  Either way the provider
    is not called. *)
Theorem cache_file_that_is_not_an_object
  (data : string) (v : value) (now : Z) (r : response) (w : world) :
  JSON_parse data = Some v ->
  match v with
  | VObj _ => True
  | VNull | VUndefined =>
      snd (getAccessToken now r (set_disk (Content data) w)) = Threw TypeError
      /\ refresh_calls (fst (getAccessToken now r (set_disk (Content data) w)))
         = refresh_calls w
  | _ =>
      snd (getAccessToken now r (set_disk (Content data) w))
      = Threw no_valid_authentication
      /\ refresh_calls (fst (getAccessToken now r (set_disk (Content data) w)))
         = refresh_calls w
  end.
Proof.
  intros P.
  assert (L : loadTokenCache (set_disk (Content data) w)
              = assign v (emit [FsExists; FsRead] (set_disk (Content data) w))).
  { unfold loadTokenCache. simpl. now rewrite P. }
  assert (C : refresh_calls (assign v (emit [FsExists; FsRead]
                                         (set_disk (Content data) w)))
              = refresh_calls w).
  { rewrite refresh_calls_assign, refresh_calls_emit. simpl.
    unfold refresh_calls, set_disk. simpl. lia. }
  destruct v; try exact I;
    unfold getAccessToken, getAccessToken_begin; rewrite L; simpl;
    (split; [reflexivity | exact C]).
Qed.

Lemma cache_file_that_is_not_an_object_witness :
  JSON_parse "null" = Some VNull
  /\ snd (getAccessToken Samples.midnight (Rejected NetworkError)
            (set_disk (Content "null") Samples.expired)) = Threw TypeError.
Proof.
  split; [vm_compute; reflexivity |].
  apply (cache_file_that_is_not_an_object "null" VNull Samples.midnight
           (Rejected NetworkError) Samples.expired).
  vm_compute; reflexivity.
Defined.

(** X4.  A call whose refresh is rejected, or that never asks for one,
    writes nothing: the file is as before, no write is attempted, and the
    record in memory is the one loading gave. *)
Theorem rejected_call_never_writes (now : Z) (err : msal_error) (w : world) :
  let w1 := fst (getAccessToken now (Rejected err) w) in
  disk w1 = disk w
  /\ tokenCache w1 = tokenCache (loadTokenCache w)
  /\ exists es, trace w1 = (trace w ++ es)%list
                /\ forallb (fun e => negb (is_fs_write e)) es = true.
Proof.
  destruct (loadTokenCache_trace w) as [es [T Q]].
  assert (Q' : forallb (fun e => negb (is_fs_write e)) (FsExists :: es) = true).
  { unfold quiet in Q. rewrite forallb_forall in *. intros e I.
    specialize (Q e I). apply andb_true_iff in Q. tauto. }
  unfold getAccessToken, getAccessToken_begin.
  destruct (has_valid_token now (tokenCache (loadTokenCache w))) as [[|]|].
  - destruct (get_prop (tokenCache (loadTokenCache w)) "accessToken"); simpl;
      (split; [apply loadTokenCache_disk |]); (split; [reflexivity |]);
      exists (FsExists :: es); auto.
  - destruct (get_prop (tokenCache (loadTokenCache w)) "refreshToken") as [rt|];
      [destruct (truthy rt) |]; simpl;
      (split; [apply loadTokenCache_disk |]); (split; [reflexivity |]).
    + exists ((FsExists :: es) ++ [AcquireTokenByRefreshToken rt]
              ++ [ConsoleError "Refresh token failed:" (MsalError err)])%list.
      split.
      * rewrite T. now rewrite <- !app_assoc.
      * rewrite forallb_app, Q'. reflexivity.
    + exists (FsExists :: es); auto.
    + exists (FsExists :: es); auto.
  - simpl. split; [apply loadTokenCache_disk |]. split; [reflexivity |].
    exists (FsExists :: es); auto.
Qed.

(** *** Calls that differ only in what has been traced *)

Lemma loadTokenCache_frame (w w' : world) :
  Frame.same_store w w' ->
  Frame.same_store (loadTokenCache w) (loadTokenCache w').
Proof.
  destruct w as [tc d wr tn tr], w' as [tc' d' wr' tn' tr'].
  intros [A [B [C T]]]. simpl in A, B, C, T. subst tc' d' wr' tn'.
  unfold loadTokenCache, Frame.same_store. simpl.
  destruct d as [| |data]; simpl; auto.
  destruct (JSON_parse data); simpl; auto.
Qed.

Lemma saveTokenCache_frame (w w' : world) :
  Frame.same_store w w' ->
  Frame.same_store (saveTokenCache w) (saveTokenCache w').
Proof.
  destruct w as [tc d wr tn tr], w' as [tc' d' wr' tn' tr'].
  intros [A [B [C T]]]. simpl in A, B, C, T. subst tc' d' wr' tn'.
  unfold saveTokenCache, Frame.same_store. simpl.
  destruct (JSON_stringify tc); [destruct wr; [| destruct tn] |]; simpl; auto.
Qed.

Lemma getAccessToken_begin_frame (now : Z) (w w' : world) :
  Frame.same_store w w' ->
  snd (getAccessToken_begin now w) = snd (getAccessToken_begin now w')
  /\ Frame.same_store (fst (getAccessToken_begin now w))
       (fst (getAccessToken_begin now w')).
Proof.
  intros H. apply loadTokenCache_frame in H.
  unfold getAccessToken_begin.
  destruct H as [A [B [C T]]]. rewrite <- A.
  destruct (has_valid_token now (tokenCache (loadTokenCache w))) as [[|]|];
    simpl; try (split; [reflexivity | repeat split; auto]).
  - destruct (get_prop (tokenCache (loadTokenCache w)) "accessToken"); simpl;
      split; try reflexivity; repeat split; auto.
  - destruct (get_prop (tokenCache (loadTokenCache w)) "refreshToken") as [rt|];
      [destruct (truthy rt) |]; simpl;
      split; try reflexivity; repeat split; auto.
Qed.

Lemma getAccessToken_resume_frame (r : response) (w w' : world) :
  Frame.same_store w w' ->
  snd (getAccessToken_resume r w) = snd (getAccessToken_resume r w')
  /\ Frame.same_store (fst (getAccessToken_resume r w))
       (fst (getAccessToken_resume r w')).
Proof.
  intros H. unfold getAccessToken_resume.
  destruct r as [result|err]; [| simpl; split; [reflexivity | exact H]].
  destruct H as [A [B [C T]]]. rewrite <- A.
  destruct (refreshed_record result (tokenCache w)) as [record|];
    [| simpl; split; [reflexivity | repeat split; auto]].
  assert (S : Frame.same_store (saveTokenCache (assign record w))
                (saveTokenCache (assign record w'))).
  { apply saveTokenCache_frame. repeat split; auto. }
  destruct (get_prop result "accessToken"); simpl;
    (split; [reflexivity | exact S]).
Qed.

(** What a call returns, and the record and file it leaves, do not depend
    on what was traced before. *)
Lemma getAccessToken_frame (now : Z) (r : response) (w w' : world) :
  Frame.same_store w w' ->
  snd (getAccessToken now r w) = snd (getAccessToken now r w')
  /\ Frame.same_store (fst (getAccessToken now r w)) (fst (getAccessToken now r w')).
Proof.
  intros H. destruct (getAccessToken_begin_frame now w w' H) as [O S].
  unfold getAccessToken.
  destruct (getAccessToken_begin now w) as [w1 p].
  destruct (getAccessToken_begin now w') as [w1' p'].
  simpl in O, S. subst p'.
  destruct p as [o|]; [simpl; auto |].
  apply getAccessToken_resume_frame; auto.
Qed.

(** X5.  Asking for the consent URL (no code, or an empty one) leaves the
    record and the file as they are, whatever MSAL answers: the only effect
    is the request for the URL, and a call of [getAccessToken] afterwards
    ends as it would have before.  A URL that is obtained is handed back
    inside the reply. *)
Theorem consent_url_request_keeps_credential
  (authCode : option string) (u : url_response) (r r' : response) (now : Z)
  (w : world) :
  Text.given authCode = None ->
  let w1 := fst (outlook_auth authCode u r w) in
  tokenCache w1 = tokenCache w
  /\ disk w1 = disk w
  /\ trace w1 = (trace w ++ [GetAuthCodeUrl])%list
  /\ snd (getAccessToken now r' w1) = snd (getAccessToken now r' w)
  /\ forall url, u = UrlResolved url ->
       snd (outlook_auth authCode u r w)
       = Returned (text_content
           ("Please visit this URL to authenticate:" ++ nl ++ url ++ nl ++ nl
            ++ "Then call this tool again with the 'code' parameter from the redirect URL.")).
Proof.
  intros G w1.
  assert (E : outlook_auth authCode u r w
              = outlook_auth_resume_url u (emit [GetAuthCodeUrl] w)).
  { unfold outlook_auth, outlook_auth_begin. destruct authCode as [code|]; auto.
    unfold Text.given in G. destruct (String.eqb code EmptyString); auto.
    discriminate. }
  assert (W : w1 = emit [GetAuthCodeUrl] w).
  { unfold w1. rewrite E. destruct u; reflexivity. }
  rewrite W, E.
  split; [reflexivity |]. split; [reflexivity |]. split; [reflexivity |].
  split.
  - apply getAccessToken_frame. repeat split.
  - intros url ->. reflexivity.
Qed.

Lemma consent_url_request_keeps_credential_witness :
  Text.given (Some EmptyString) = None
  /\ snd (getAccessToken Samples.midnight (Rejected NetworkError)
            (fst (outlook_auth (Some EmptyString) (UrlRejected NetworkError)
                    (Rejected NetworkError)
                    (Samples.started "2024-01-01T01:00:00.000Z"))))
     = snd (getAccessToken Samples.midnight (Rejected NetworkError)
              (Samples.started "2024-01-01T01:00:00.000Z")).
Proof.
  split; [reflexivity |].
  apply (consent_url_request_keeps_credential (Some EmptyString)
           (UrlRejected NetworkError) (Rejected NetworkError)
           (Rejected NetworkError) Samples.midnight
           (Samples.started "2024-01-01T01:00:00.000Z")).
  reflexivity.
Defined.

(** X6.  A code exchange that fails, by a rejection or by an empty result,
    leaves the handler with that failure and changes neither the record nor
    the file, and nothing is logged or written: a call of [getAccessToken]
    afterwards ends as it would have before. *)
Theorem failed_code_exchange_keeps_credential
  (code : string) (u : url_response) (err : msal_error) (r' : response)
  (now : Z) (w : world) :
  code <> EmptyString ->
  (snd (outlook_auth (Some code) u (Rejected err) w) = Threw (MsalError err)
   /\ snd (outlook_auth (Some code) u (Resolved VNull) w) = Threw TypeError)
  /\ forall r, r = Rejected err \/ r = Resolved VNull ->
       let w1 := fst (outlook_auth (Some code) u r w) in
       tokenCache w1 = tokenCache w
       /\ disk w1 = disk w
       /\ trace w1 = (trace w ++ [AcquireTokenByCode code])%list
       /\ snd (getAccessToken now r' w1) = snd (getAccessToken now r' w).
Proof.
  intros N.
  assert (E : String.eqb code EmptyString = false).
  { destruct (String.eqb code EmptyString) eqn:E; auto.
    apply String.eqb_eq in E. contradiction. }
  unfold outlook_auth, outlook_auth_begin. rewrite E.
  split; [split; reflexivity |].
  intros r [-> | ->]; simpl;
    (split; [reflexivity |]); (split; [reflexivity |]);
    (split; [reflexivity |]); apply getAccessToken_frame; repeat split.
Qed.

Lemma failed_code_exchange_keeps_credential_witness :
  "expired-code" <> EmptyString
  /\ snd (outlook_auth (Some "expired-code") (UrlRejected NetworkError)
            (Rejected InvalidGrant) (Samples.started "2024-01-01T01:00:00.000Z"))
     = Threw (MsalError InvalidGrant).
Proof.
  split; [discriminate |].
  apply (failed_code_exchange_keeps_credential "expired-code"
           (UrlRejected NetworkError) InvalidGrant (Rejected NetworkError)
           Samples.midnight (Samples.started "2024-01-01T01:00:00.000Z")).
  discriminate.
Defined.


(** *** After a successful exchange *)


(** A record with a string token and a [Date] expiry, once saved: what the
    next call finds on loading, before and from the expiry on. *)
Lemma saved_record_next_call
  (a : string) (rt : value) (t now : Z) (r : response) (w : world) :
  a <> EmptyString -> token_field rt = true -> Z.abs t <= maxTime ->
  writable w = true ->
  let w1 := saveTokenCache (assign (credential (VStr a) rt (VDate (Some t))) w) in
  (now < t -> getAccessToken now r w1 = (loadTokenCache w1, Returned (VStr a)))
  /\ (t <= now -> truthy rt = true ->
      getAccessToken_begin now w1
      = (emit [AcquireTokenByRefreshToken rt] (loadTokenCache w1), Suspended)).
Proof.
  intros N Hr Ht W w1.
  assert (He : expiry_field (VDate (Some t)) = true) by (now apply Z.leb_le).
  destruct (JSON_roundtrip_credential (VStr a) rt (VDate (Some t)) eq_refl Hr He)
    as [text [v [S [P [Ga [Gr [Ge _]]]]]]].
  assert (L : tokenCache (loadTokenCache w1) = v)
    by (apply (save_then_load _ _ text); auto).
  assert (Tv : time_value (persisted (VDate (Some t))) = Some t)
    by (now rewrite persisted_time_value).
  assert (V : has_valid_token now v = Some (now <? t)).
  { unfold has_valid_token. rewrite Ga, Ge, (truthy_nonempty a N), persisted_truthy.
    unfold date_after. now rewrite Tv. }
  unfold getAccessToken, getAccessToken_begin. rewrite L, V, Ga, Gr.
  split.
  - intros Lt. apply Z.ltb_lt in Lt. now rewrite Lt.
  - intros Le T. apply Z.ltb_ge in Le. now rewrite Le, T.
Qed.

(** X7.  After a successful code exchange whose result carries a string
    access token and a [Date] expiry, and with a writable cache file, every
    call of [getAccessToken] made before that expiry returns the new access
    token from the cache: the provider is not asked again. *)
Theorem code_exchange_then_cache_hit
  (code a : string) (t now : Z) (u : url_response) (r' : response)
  (fields : list (string * value)) (w : world) :
  code <> EmptyString -> a <> EmptyString ->
  field fields "accessToken" = VStr a ->
  field fields "expiresOn" = VDate (Some t) ->
  token_field (field fields "refreshToken") = true ->
  Z.abs t <= maxTime -> now < t -> writable w = true ->
  let w1 := fst (outlook_auth (Some code) u (Resolved (VObj fields)) w) in
  snd (getAccessToken now r' w1) = Returned (VStr a)
  /\ refresh_calls (fst (getAccessToken now r' w1)) = refresh_calls w.
Proof.
  intros Nc Na Fa Fe Fr Ht Lt W w1.
  assert (E : String.eqb code EmptyString = false).
  { destruct (String.eqb code EmptyString) eqn:E; auto.
    apply String.eqb_eq in E. contradiction. }
  assert (W1 : w1 = saveTokenCache
                      (assign (credential (VStr a) (field fields "refreshToken")
                                 (VDate (Some t)))
                         (emit [AcquireTokenByCode code] w))).
  { unfold w1, outlook_auth, outlook_auth_begin. rewrite E.
    unfold outlook_auth_resume_code, authorized_record.
    rewrite !get_prop_object, Fa, Fe. reflexivity. }
  destruct (saved_record_next_call a (field fields "refreshToken") t now r'
              (emit [AcquireTokenByCode code] w) Na Fr Ht W) as [Hit _].
  rewrite W1, (Hit Lt). simpl.
  rewrite refresh_calls_load, refresh_calls_save, refresh_calls_assign,
    refresh_calls_emit.
  simpl. split; [reflexivity | lia].
Qed.

Lemma code_exchange_then_cache_hit_witness :
  ("validcode" <> EmptyString /\ "A1" <> EmptyString
   /\ Z.abs (Samples.midnight + 3600000) <= maxTime
   /\ Samples.midnight < Samples.midnight + 3600000)
  /\ snd (getAccessToken Samples.midnight (Rejected NetworkError)
            (fst (outlook_auth (Some "validcode") (UrlRejected NetworkError)
                    (Resolved (Samples.fresh (Samples.midnight + 3600000)))
                    (initial NoFile true))))
     = Returned (VStr "A1").
Proof.
  split; [repeat split; try discriminate; unfold maxTime, Samples.midnight; lia |].
  apply (code_exchange_then_cache_hit "validcode" "A1"
           (Samples.midnight + 3600000) Samples.midnight
           (UrlRejected NetworkError) (Rejected NetworkError)
           [("accessToken", VStr "A1"); ("refreshToken", VStr "R1");
            ("expiresOn", VDate (Some (Samples.midnight + 3600000)))]
           (initial NoFile true));
    try reflexivity; try discriminate; unfold maxTime, Samples.midnight; lia.
Defined.

(** X8.  After a successful refresh whose result carries a string access
    token and a [Date] expiry, and with a writable cache file: calls made
    before the new expiry return the new access token without asking the
    provider; the first call from the new expiry on asks for a refresh with
    the refresh token of the result if it carried one, and with the one
    held before otherwise. *)
Theorem refresh_then_next_calls
  (a : string) (t now now' : Z) (r' : response) (old_rt : value)
  (fields : list (string * value)) (w : world) :
  classify now (tokenCache (loadTokenCache w)) = Some NeedsRefresh ->
  get_prop (tokenCache (loadTokenCache w)) "refreshToken" = Some old_rt ->
  a <> EmptyString ->
  field fields "accessToken" = VStr a ->
  field fields "expiresOn" = VDate (Some t) ->
  token_field (or_else (field fields "refreshToken") old_rt) = true ->
  Z.abs t <= maxTime -> writable w = true ->
  let w1 := fst (getAccessToken now (Resolved (VObj fields)) w) in
  (now' < t ->
   snd (getAccessToken now' r' w1) = Returned (VStr a)
   /\ refresh_calls (fst (getAccessToken now' r' w1)) = S (refresh_calls w))
  /\ (t <= now' ->
      getAccessToken_begin now' w1
      = (emit [AcquireTokenByRefreshToken
                 (or_else (field fields "refreshToken") old_rt)]
           (loadTokenCache w1), Suspended)).
Proof.
  intros H G Na Fa Fe Fr Ht W w1.
  destruct (begin_needs_refresh now w H) as [rt [G' [T B]]].
  rewrite G in G'. injection G' as <-.
  assert (W1 : w1 = saveTokenCache
                      (assign (credential (VStr a)
                                 (or_else (field fields "refreshToken") old_rt)
                                 (VDate (Some t)))
                         (emit [AcquireTokenByRefreshToken old_rt]
                            (loadTokenCache w)))).
  { unfold w1, getAccessToken. rewrite B. unfold getAccessToken_resume.
    change (tokenCache (emit [AcquireTokenByRefreshToken old_rt] (loadTokenCache w)))
      with (tokenCache (loadTokenCache w)).
    rewrite (refreshed_record_object fields _ old_rt G), get_prop_object, Fa, Fe.
    reflexivity. }
  assert (W' : writable (emit [AcquireTokenByRefreshToken old_rt] (loadTokenCache w))
               = true).
  { simpl. now rewrite loadTokenCache_writable. }
  assert (Tr : truthy (or_else (field fields "refreshToken") old_rt) = true).
  { unfold or_else. destruct (truthy (field fields "refreshToken")) eqn:X; auto. }
  destruct (saved_record_next_call a (or_else (field fields "refreshToken") old_rt)
              t now' r' _ Na Fr Ht W') as [Hit Miss].
  rewrite W1. split.
  - intros Lt. rewrite (Hit Lt). simpl.
    rewrite refresh_calls_load, refresh_calls_save, refresh_calls_assign,
      refresh_calls_emit, refresh_calls_load.
    simpl. split; [reflexivity | lia].
  - intros Le. exact (Miss Le Tr).
Qed.

Lemma refresh_then_next_calls_witness :
  (classify Samples.midnight (tokenCache (loadTokenCache Samples.expired))
   = Some NeedsRefresh
   /\ get_prop (tokenCache (loadTokenCache Samples.expired)) "refreshToken"
      = Some (VStr "R1")
   /\ "A2" <> EmptyString
   /\ Z.abs (Samples.midnight + 3600000) <= maxTime
   /\ writable Samples.expired = true)
  /\ getAccessToken_begin (Samples.midnight + 3600000)
       (fst (getAccessToken Samples.midnight (Resolved Samples.renewed)
               Samples.expired))
     = (emit [AcquireTokenByRefreshToken (VStr "R1")]
          (loadTokenCache
             (fst (getAccessToken Samples.midnight (Resolved Samples.renewed)
                     Samples.expired))),
        Suspended).
Proof.
  split.
  { repeat split; try discriminate; try (vm_compute; reflexivity);
      unfold maxTime, Samples.midnight; lia. }
  apply (refresh_then_next_calls "A2" (Samples.midnight + 3600000)
           Samples.midnight (Samples.midnight + 3600000) (Rejected NetworkError)
           (VStr "R1")
           [("accessToken", VStr "A2");
            ("expiresOn", VDate (Some (Samples.midnight + 3600000)))]
           Samples.expired);
    try (vm_compute; reflexivity); try discriminate;
    unfold maxTime, Samples.midnight; lia.
Defined.


(** *** Two refreshes outstanding at once *)

Lemma settle_refresh (id : nat) (fields : list (string * value)) (rt : value)
  (sys : system) :
  find_task id (waiting sys) = Some RefreshWait ->
  get_prop (tokenCache (state sys)) "refreshToken" = Some rt ->
  handle (Settle id (Resolved (VObj fields))) sys
  = mkSystem
      (saveTokenCache
         (assign (credential (field fields "accessToken")
                    (or_else (field fields "refreshToken") rt)
                    (field fields "expiresOn")) (state sys)))
      (remove_task id (waiting sys))
      ((id, Returned (field fields "accessToken")) :: finished sys)
      (next sys).
Proof.
  intros F G. unfold handle. rewrite F. unfold getAccessToken_resume.
  rewrite (refreshed_record_object fields _ rt G), get_prop_object.
  reflexivity.
Qed.

(** X9.  When two calls have each sent a refresh request and both requests
    succeed, each caller gets the access token of its own result, and the
    record left is the one built from the result that arrived last: its
    access token and expiry are that result's, and its refresh token is
    that result's if it carries one, else the earlier result's, else the
    one held at the start. *)
Theorem last_refresh_wins
  (now1 now2 : Z) (first second : nat) (f1 f2 : list (string * value))
  (old_rt : value) (w : world) :
  classify now1 (tokenCache (loadTokenCache w)) = Some NeedsRefresh ->
  classify now2 (tokenCache (loadTokenCache w)) = Some NeedsRefresh ->
  get_prop (tokenCache (loadTokenCache w)) "refreshToken" = Some old_rt ->
  (first = 0%nat /\ second = 1%nat) \/ (first = 1%nat /\ second = 0%nat) ->
  let sys := run [CallGetAccessToken now1; CallGetAccessToken now2;
                  Settle first (Resolved (VObj f1));
                  Settle second (Resolved (VObj f2))] (boot w) in
  tokenCache (state sys)
  = credential (field f2 "accessToken")
      (or_else (field f2 "refreshToken")
         (or_else (field f1 "refreshToken") old_rt))
      (field f2 "expiresOn")
  /\ finished sys = [(second, Returned (field f2 "accessToken"));
                     (first, Returned (field f1 "accessToken"))]
  /\ waiting sys = []
  /\ refresh_calls (state sys) = S (S (refresh_calls w)).
Proof.
  intros H1 H2 G O sys.
  assert (F : Forall (fun now => classify now (tokenCache (loadTokenCache (state (boot w))))
                                 = Some NeedsRefresh) [now1; now2]).
  { repeat constructor; assumption. }
  destruct (calls_all_suspend [now1; now2] (boot w) F) as [R [W [Fi [D T]]]].
  set (sys0 := run (map CallGetAccessToken [now1; now2]) (boot w)) in *.
  simpl in R, W, Fi, D, T.
  assert (T0 : tokenCache (state sys0) = tokenCache (loadTokenCache w))
    by (apply T; discriminate).
  assert (S : sys = handle (Settle second (Resolved (VObj f2)))
                      (handle (Settle first (Resolved (VObj f1))) sys0))
    by reflexivity.
  assert (G0 : get_prop (tokenCache (state sys0)) "refreshToken" = Some old_rt)
    by (now rewrite T0).
  assert (F1 : find_task first (waiting sys0) = Some RefreshWait).
  { rewrite W. destruct O as [[-> _] | [-> _]]; reflexivity. }
  rewrite S, (settle_refresh first f1 old_rt sys0 F1 G0).
  rewrite (settle_refresh second f2 (or_else (field f1 "refreshToken") old_rt)).
  - cbn [state finished waiting].
    split; [now rewrite saveTokenCache_tokenCache |].
    split; [now rewrite Fi |].
    split; [rewrite W; destruct O as [[-> ->] | [-> ->]]; reflexivity |].
    rewrite !refresh_calls_save, !refresh_calls_assign, !refresh_calls_save,
      !refresh_calls_assign, R.
    simpl. lia.
  - cbn [waiting]. rewrite W. destruct O as [[-> ->] | [-> ->]]; reflexivity.
  - cbn [state]. rewrite saveTokenCache_tokenCache. reflexivity.
Qed.

Lemma last_refresh_wins_witness :
  (classify Samples.midnight (tokenCache (loadTokenCache Samples.expired))
   = Some NeedsRefresh
   /\ get_prop (tokenCache (loadTokenCache Samples.expired)) "refreshToken"
      = Some (VStr "R1"))
  /\ tokenCache
       (state
          (run [CallGetAccessToken Samples.midnight;
                CallGetAccessToken Samples.midnight;
                Settle 1 (Resolved (VObj [("accessToken", VStr "later");
                                          ("refreshToken", VStr "R2")]));
                Settle 0 (Resolved (VObj [("accessToken", VStr "earlier")]))]
             (boot Samples.expired)))
     = credential (VStr "earlier") (VStr "R2") VUndefined.
Proof.
  split; [split; vm_compute; reflexivity |].
  apply (last_refresh_wins Samples.midnight Samples.midnight 1 0
           [("accessToken", VStr "later"); ("refreshToken", VStr "R2")]
           [("accessToken", VStr "earlier")] (VStr "R1") Samples.expired);
    try (vm_compute; reflexivity).
  right. split; reflexivity.
Defined.

End TokenFacts.

(* ================================================================== *)
(** ** Properties of the time helper and of the tools *)

Module ToolFacts.
Import JS DateTime JSON Server Text Tools CodecFacts ServerFacts.

(** *** The string methods *)

Lemma includes_append (c : ascii) (a b : string) :
  includes c (a ++ b) = includes c a || includes c b.
Proof.
  induction a as [|x a IH]; simpl; [reflexivity |].
  rewrite IH. now rewrite orb_assoc.
Qed.

Lemma count_append (c : ascii) (a b : string) :
  count c (a ++ b) = (count c a + count c b)%nat.
Proof.
  induction a as [|x a IH]; simpl; [reflexivity |].
  destruct (Ascii.eqb x c); simpl; now rewrite IH.
Qed.

Lemma count_absent (c : ascii) (s : string) :
  includes c s = false <-> count c s = O.
Proof.
  induction s as [|x s IH]; simpl; [tauto |].
  destruct (Ascii.eqb x c); simpl; [split; discriminate | exact IH].
Qed.

Lemma replace_first_absent (c : ascii) (s : string) :
  includes c s = false -> replace_first c s = s.
Proof.
  induction s as [|x s IH]; simpl; [reflexivity |].
  destruct (Ascii.eqb x c); simpl; [discriminate |].
  intros H. now rewrite IH.
Qed.

Lemma replace_first_append (c : ascii) (a b : string) :
  includes c a = false -> replace_first c (a ++ b) = a ++ replace_first c b.
Proof.
  induction a as [|x a IH]; simpl; [reflexivity |].
  destruct (Ascii.eqb x c); simpl; [discriminate |].
  intros H. now rewrite IH.
Qed.

Lemma count_replace_first (c : ascii) (s : string) :
  count c (replace_first c s) = Nat.pred (count c s).
Proof.
  induction s as [|x s IH]; simpl; [reflexivity |].
  destruct (Ascii.eqb x c) eqn:E; simpl; [reflexivity |].
  now rewrite E.
Qed.

Lemma includes_replace_first (c d : ascii) (s : string) :
  Ascii.eqb c d = false ->
  includes d (replace_first c s) = includes d s.
Proof.
  intros N. induction s as [|x s IH]; simpl; [reflexivity |].
  destruct (Ascii.eqb x c) eqn:E; simpl.
  - apply Ascii.eqb_eq in E. subst x. now rewrite N.
  - now rewrite IH.
Qed.

Lemma split_head_absent (c : ascii) (s : string) :
  includes c s = false -> split_head c s = s.
Proof.
  induction s as [|x s IH]; simpl; [reflexivity |].
  destruct (Ascii.eqb x c); simpl; [discriminate |].
  intros H. now rewrite IH.
Qed.

Lemma split_head_prefix (c : ascii) (s : string) :
  includes c (split_head c s) = false
  /\ exists rest, s = split_head c s ++ rest.
Proof.
  induction s as [|x s [IH1 [rest IH2]]]; simpl.
  - split; [reflexivity | exists EmptyString; reflexivity].
  - destruct (Ascii.eqb x c) eqn:E; simpl.
    + split; [reflexivity | exists (String x s); reflexivity].
    + rewrite E, IH1. split; [reflexivity |].
      exists rest. now rewrite <- IH2.
Qed.

(** *** formatDateTimeForGraph *)

(** The text before the final removal of [Z]. *)
Lemma formatted_dateTime (sys s : string) (tz : option string) :
  dateTime (formatDateTimeForGraph sys s tz)
  = replace_first "Z"
      (let dt := if negb (includes "T" s) then s ++ "T00:00:00" else s in
       if negb (includes "Z" dt) && negb (includes "+" dt) && negb (includes "-" dt)
       then dt ++ ".000Z" else dt).
Proof. reflexivity. Qed.

Lemma padded_includes (c : ascii) (s : string) :
  includes c "T00:00:00" = false ->
  includes c (if negb (includes "T" s) then s ++ "T00:00:00" else s)
  = includes c s.
Proof.
  intros H. destruct (includes "T" s); simpl; [reflexivity |].
  rewrite includes_append, H. apply orb_false_r.
Qed.

(** X10.  Whatever it is given, the helper returns a [dateTime] that
    contains a [T], and exactly one [Z] less than its input (none when the
    input has at most one): only the first [Z] is removed, so an input with
    two keeps one. *)
Theorem formatted_time_shape (sys s : string) (tz : option string) :
  includes "T" (dateTime (formatDateTimeForGraph sys s tz)) = true
  /\ count "Z" (dateTime (formatDateTimeForGraph sys s tz))
     = Nat.pred (count "Z" s)
  /\ ((count "Z" s <= 1)%nat ->
      includes "Z" (dateTime (formatDateTimeForGraph sys s tz)) = false).
Proof.
  rewrite formatted_dateTime. cbv zeta.
  set (dt := if negb (includes "T" s) then s ++ "T00:00:00" else s).
  assert (HT : includes "T" dt = true).
  { unfold dt. destruct (includes "T" s) eqn:E; simpl; auto.
    rewrite includes_append, E. reflexivity. }
  assert (HZ : includes "Z" dt = includes "Z" s)
    by (apply padded_includes; reflexivity).
  assert (CZ : count "Z" dt = count "Z" s).
  { unfold dt. destruct (includes "T" s); simpl; auto.
    rewrite count_append. simpl. lia. }
  assert (C : count "Z"
                (replace_first "Z"
                   (if negb (includes "Z" dt) && negb (includes "+" dt)
                       && negb (includes "-" dt)
                    then dt ++ ".000Z" else dt))
              = Nat.pred (count "Z" s)).
  { rewrite count_replace_first.
    destruct (negb (includes "Z" dt) && negb (includes "+" dt)
              && negb (includes "-" dt)) eqn:E.
    - rewrite count_append, CZ. simpl.
      apply andb_true_iff in E as [E _]. apply andb_true_iff in E as [E _].
      apply negb_true_iff in E. rewrite HZ in E. apply count_absent in E.
      rewrite E. reflexivity.
    - now rewrite CZ. }
  split; [| split; [exact C |]].
  - rewrite includes_replace_first by reflexivity.
    destruct (negb (includes "Z" dt) && negb (includes "+" dt)
              && negb (includes "-" dt)); auto.
    rewrite includes_append, HT. reflexivity.
  - intros L. apply count_absent. rewrite C. lia.
Qed.

(** X11.  On an input that has a [-] or a [+] (every hyphenated date, every
    time with an offset) and at most one [Z], formatting is stable:
    formatting the [dateTime] it returned gives that same [dateTime]
    again. *)
Theorem formatting_is_stable (sys s : string) (tz tz' : option string) :
  includes "-" s || includes "+" s = true -> (count "Z" s <= 1)%nat ->
  dateTime (formatDateTimeForGraph sys
              (dateTime (formatDateTimeForGraph sys s tz)) tz')
  = dateTime (formatDateTimeForGraph sys s tz).
Proof.
  intros S Z1.
  destruct (formatted_time_shape sys s tz) as [HT [_ HZ]].
  specialize (HZ Z1).
  set (d := dateTime (formatDateTimeForGraph sys s tz)) in *.
  assert (HS : includes "-" d || includes "+" d = true).
  { unfold d. rewrite formatted_dateTime. cbv zeta.
    rewrite !includes_replace_first by reflexivity.
    set (dt := if negb (includes "T" s) then s ++ "T00:00:00" else s).
    assert (Hm : includes "-" dt = includes "-" s)
      by (apply padded_includes; reflexivity).
    assert (Hp : includes "+" dt = includes "+" s)
      by (apply padded_includes; reflexivity).
    assert (F : negb (includes "Z" dt) && negb (includes "+" dt)
                && negb (includes "-" dt) = false).
    { rewrite Hm, Hp.
      destruct (includes "-" s), (includes "+" s); try discriminate;
        rewrite ?andb_false_r; reflexivity. }
    rewrite F, Hm, Hp. exact S. }
  rewrite formatted_dateTime. cbv zeta. rewrite HT. simpl negb. cbv iota.
  assert (F : negb (includes "Z" d) && negb (includes "+" d)
              && negb (includes "-" d) = false).
  { destruct (includes "-" d), (includes "+" d); try discriminate;
      rewrite ?andb_false_r; reflexivity. }
  rewrite F. now apply replace_first_absent.
Qed.

Lemma formatting_is_stable_witness :
  (includes "-" "2024-01-15T10:00:00Z" || includes "+" "2024-01-15T10:00:00Z" = true
   /\ (count "Z" "2024-01-15T10:00:00Z" <= 1)%nat)
  /\ dateTime (formatDateTimeForGraph "Europe/London"
                 (dateTime (formatDateTimeForGraph "Europe/London"
                              "2024-01-15T10:00:00Z" None)) None)
     = "2024-01-15T10:00:00".
Proof.
  split; [split; [reflexivity | simpl; lia] |].
  apply (formatting_is_stable "Europe/London" "2024-01-15T10:00:00Z" None None).
  - reflexivity.
  - simpl; lia.
Defined.

(** X12.  On an input with no [Z], no [+] and no [-] (a compact date such
    as 20240115T100000) the helper appends [.000]: the suffix [.000Z] goes
    on and its [Z] comes off.  It does so at every pass, so formatting the
    result again appends a second [.000]. *)
Theorem bare_time_gets_milliseconds (sys s : string) (tz tz' : option string) :
  includes "Z" s = false -> includes "+" s = false -> includes "-" s = false ->
  let padded := if includes "T" s then s else s ++ "T00:00:00" in
  dateTime (formatDateTimeForGraph sys s tz) = padded ++ ".000"
  /\ dateTime (formatDateTimeForGraph sys
                 (dateTime (formatDateTimeForGraph sys s tz)) tz')
     = padded ++ ".000" ++ ".000".
Proof.
  intros HZ HP HM padded.
  assert (B : forall x, includes "T" x = true -> includes "Z" x = false ->
                includes "+" x = false -> includes "-" x = false ->
                forall z, dateTime (formatDateTimeForGraph sys x z) = x ++ ".000").
  { intros x XT XZ XP XM z. rewrite formatted_dateTime. cbv zeta.
    rewrite XT. simpl negb. cbv iota. rewrite XZ, XP, XM. simpl.
    rewrite replace_first_append by exact XZ. reflexivity. }
  assert (PT : includes "T" padded = true).
  { unfold padded. destruct (includes "T" s) eqn:E; auto.
    rewrite includes_append, E. reflexivity. }
  assert (P : forall c, includes c "T00:00:00" = false ->
                includes c padded = includes c s).
  { intros c H. unfold padded. destruct (includes "T" s); auto.
    rewrite includes_append, H. apply orb_false_r. }
  assert (E : dateTime (formatDateTimeForGraph sys s tz) = padded ++ ".000").
  { rewrite formatted_dateTime. cbv zeta.
    replace (if negb (includes "T" s) then s ++ "T00:00:00" else s) with padded
      by (unfold padded; destruct (includes "T" s); reflexivity).
    rewrite !P by reflexivity. rewrite HZ, HP, HM. simpl.
    rewrite replace_first_append by (rewrite P by reflexivity; exact HZ).
    reflexivity. }
  split; [exact E |].
  rewrite E, B.
  - now rewrite append_assoc.
  - rewrite includes_append, PT. reflexivity.
  - rewrite includes_append, P, HZ by reflexivity. reflexivity.
  - rewrite includes_append, P, HP by reflexivity. reflexivity.
  - rewrite includes_append, P, HM by reflexivity. reflexivity.
Qed.

Lemma bare_time_gets_milliseconds_witness :
  (includes "Z" "20240115T100000" = false /\ includes "+" "20240115T100000" = false
   /\ includes "-" "20240115T100000" = false)
  /\ dateTime (formatDateTimeForGraph "Europe/London" "20240115T100000" None)
     = "20240115T100000.000".
Proof.
  split; [repeat split; reflexivity |].
  apply (bare_time_gets_milliseconds "Europe/London" "20240115T100000" None None);
    reflexivity.
Defined.


(** *** The calendar tools *)

(** X13.  With no bounds given (absent or empty), the calendar view is
    asked for the seven days that start at the clock reading, to the
    millisecond: the two bounds sent are ISO texts of [now] and of [now]
    plus 604800000 ms.  When that end is past the last representable
    instant the handler stops with a RangeError before any request. *)
Theorem default_calendar_window
  (now : Z) (startDateTime endDateTime : option string) (limit tok : value) :
  Z.abs now <= maxTime ->
  given startDateTime = None -> given endDateTime = None ->
  (Z.abs (now + week) <= maxTime ->
   exists s e,
     list_calendar_events_request now startDateTime endDateTime limit tok
     = Some (mkRequest GET "/me/calendarView" tok
               (VObj [("startDateTime", VStr s); ("endDateTime", VStr e);
                      ("$top", limit); ("$select", VStr calendar_view_select);
                      ("$orderby", VStr "start/dateTime")])
               VUndefined)
     /\ Date_parse s = Some now
     /\ Date_parse e = Some (now + 604800000))
  /\ (maxTime < now + week ->
      list_calendar_events_request now startDateTime endDateTime limit tok = None).
Proof.
  intros Hn Gs Ge.
  unfold list_calendar_events_request, calendar_window. rewrite Gs, Ge.
  split.
  - intros Hw. unfold time_clip.
    rewrite (proj2 (Z.leb_le _ _) Hw).
    exists (toISOString now), (toISOString (now + week)).
    split; [reflexivity |].
    split; now apply Date_parse_toISOString.
  - intros Hw. unfold time_clip.
    assert (L : (Z.abs (now + week) <=? maxTime) = false)
      by (apply Z.leb_gt; unfold week, maxTime in *; lia).
    now rewrite L.
Qed.

Lemma default_calendar_window_witness :
  (Z.abs Samples.midnight <= maxTime /\ Z.abs (Samples.midnight + week) <= maxTime)
  /\ exists s e,
       list_calendar_events_request Samples.midnight None (Some EmptyString)
         (VNum 20 0) (VStr "A1")
       = Some (mkRequest GET "/me/calendarView" (VStr "A1")
                 (VObj [("startDateTime", VStr s); ("endDateTime", VStr e);
                        ("$top", VNum 20 0); ("$select", VStr calendar_view_select);
                        ("$orderby", VStr "start/dateTime")])
                 VUndefined)
       /\ Date_parse s = Some Samples.midnight
       /\ Date_parse e = Some (Samples.midnight + 604800000).
Proof.
  split; [split; unfold maxTime, week, Samples.midnight; lia |].
  apply (default_calendar_window Samples.midnight None (Some EmptyString)
           (VNum 20 0) (VStr "A1"));
    try reflexivity; unfold maxTime, week, Samples.midnight; lia.
Defined.

(** X14.  For an all-day event neither the [timezone] parameter nor the
    system zone plays any part: the event sent is the same whatever they
    are; its start and end carry the fixed zone, and their [dateTime] is
    the part of the parameter before its first [T], so it contains no [T]
    (and is the parameter itself when that has none). *)
Theorem all_day_event_ignores_timezone
  (sys sys' subject start end_ : string) (body location : option string)
  (attendees : option (list string)) (imp : importance) (showAs : show_as)
  (tz tz' : option string) :
  calendar_event sys subject start end_ body location attendees imp showAs true tz
  = calendar_event sys' subject start end_ body location attendees imp showAs
      true tz'
  /\ (forall id tok,
        snd (create_calendar_event sys subject start end_ body location attendees
               imp showAs true tz (Answer id) tok)
        = Replied ("Calendar event created successfully! Event ID: " ++ id ++ nl
                   ++ "Timezone: tzone://Microsoft/Custom"))
  /\ forall t,
       timeZone (event_time sys true t tz) = "tzone://Microsoft/Custom"
       /\ includes "T" (dateTime (event_time sys true t tz)) = false
       /\ (exists rest, t = dateTime (event_time sys true t tz) ++ rest)
       /\ (includes "T" t = false -> dateTime (event_time sys true t tz) = t).
Proof.
  split; [reflexivity |]. split; [reflexivity |].
  intros t. unfold event_time. cbn [dateTime timeZone].
  destruct (split_head_prefix "T" t) as [A B].
  repeat split; auto.
  apply split_head_absent.
Qed.

(** X15.  The body of an update holds a key only for a parameter that is
    given and not empty: an empty string is dropped exactly like an absent
    parameter, for the event update and for the task update alike, so no
    field can be blanked; with nothing given the PATCH is sent with an
    empty object. *)
Theorem updates_drop_empty_strings
  (sys : string) (subject start end_ body location title dueDateTime : option string)
  (imp : option importance) (status : option task_status) (tz : option string) :
  let e := event_update sys subject start end_ body location imp tz in
  let t := task_update title body dueDateTime imp status in
  ((given subject = None <-> get_prop e "subject" = Some VUndefined)
   /\ (given start = None <-> get_prop e "start" = Some VUndefined)
   /\ (given end_ = None <-> get_prop e "end" = Some VUndefined)
   /\ (given body = None <-> get_prop e "body" = Some VUndefined)
   /\ (given location = None <-> get_prop e "location" = Some VUndefined)
   /\ (imp = None <-> get_prop e "importance" = Some VUndefined))
  /\ ((given title = None <-> get_prop t "title" = Some VUndefined)
      /\ (given body = None <-> get_prop t "body" = Some VUndefined)
      /\ (given dueDateTime = None <-> get_prop t "dueDateTime" = Some VUndefined)
      /\ (imp = None <-> get_prop t "importance" = Some VUndefined)
      /\ (status = None <-> get_prop t "status" = Some VUndefined))
  /\ (given subject = None -> given start = None -> given end_ = None ->
      given body = None -> given location = None -> imp = None ->
      e = VObj [])
  /\ (given title = None -> given body = None -> given dueDateTime = None ->
      imp = None -> status = None -> t = VObj [])
  /\ (forall eventId tok,
        fst (update_calendar_event sys eventId subject start end_ body location
               imp tz (Answer tt) tok)
        = [mkRequest PATCH ("/me/events/" ++ eventId) tok VUndefined e])
  /\ (forall taskId listId others tok,
        fst (update_task taskId title body dueDateTime imp status
               (Answer (listId :: others)) (Answer tt) tok)
        = [todo_lists tok;
           mkRequest PATCH (task_path listId taskId) tok VUndefined t]).
Proof.
  intros e t.
  split; [| split; [| split; [| split; [| split; reflexivity]]]];
    unfold e, t, event_update, task_update, when_given, when_present;
    destruct (given subject), (given start), (given end_), (given body),
      (given location), (given title), (given dueDateTime), imp, status;
      cbn; repeat split; intros; try discriminate; auto.
Qed.


(** *** The task tools *)

(** X17.  The task tools work on the first task list and on no other: what
    they send and reply is the same whatever lists follow the first in the
    answer of Graph, and the task requests go to the path of the first
    list. *)
Theorem task_tools_use_the_first_list
  (listId taskId title : string) (others : list string)
  (body dueDateTime utitle : option string)
  (imp : importance) (uimp : option importance) (status : option task_status)
  (done : option bool) (limit tok : value)
  (created : graph_result string) (settled : graph_result unit) :
  (list_tasks_begin done limit (Answer (listId :: others)) tok
   = list_tasks_begin done limit (Answer [listId]) tok
   /\ create_task title body dueDateTime imp (Answer (listId :: others)) created tok
      = create_task title body dueDateTime imp (Answer [listId]) created tok
   /\ update_task taskId utitle body dueDateTime uimp status
        (Answer (listId :: others)) settled tok
      = update_task taskId utitle body dueDateTime uimp status (Answer [listId])
          settled tok
   /\ delete_task taskId (Answer (listId :: others)) settled tok
      = delete_task taskId (Answer [listId]) settled tok
   /\ complete_task taskId (Answer (listId :: others)) settled tok
      = complete_task taskId (Answer [listId]) settled tok)
  /\ map path (fst (list_tasks_begin done limit (Answer (listId :: others)) tok))
     = ["/me/todo/lists"; "/me/todo/lists/" ++ listId ++ "/tasks"]
  /\ map path (fst (create_task title body dueDateTime imp
                      (Answer (listId :: others)) created tok))
     = ["/me/todo/lists"; "/me/todo/lists/" ++ listId ++ "/tasks"]
  /\ map path (fst (delete_task taskId (Answer (listId :: others)) settled tok))
     = ["/me/todo/lists"; "/me/todo/lists/" ++ listId ++ "/tasks/" ++ taskId].
Proof.
  repeat split; try reflexivity.
  - destruct created; reflexivity.
  - unfold delete_task, on_first_list. destruct settled; reflexivity.
Qed.

(** *** Moving a message *)

Lemma find_first {A : Type} (p : A -> bool) (l : list A) :
  match find p l with
  | Some x => exists before after,
                l = (before ++ x :: after)%list
                /\ p x = true /\ Forall (fun y => p y = false) before
  | None => Forall (fun y => p y = false) l
  end.
Proof.
  induction l as [|y l IH]; simpl; [constructor |].
  destruct (p y) eqn:E.
  - exists [], l. repeat split; auto.
  - destruct (find p l) as [x|].
    + destruct IH as [before [after [L [P F]]]].
      exists (y :: before), after. subst l. repeat split; auto.
    + constructor; auto.
Qed.

(** X18.  A message is moved to the first folder whose name equals the
    requested one once both are lower-cased: the move request names that
    folder's id, and no folder before it in the answer matches.  When no
    folder matches, the tool throws the not-found error having sent only
    the request for the folders: nothing is moved.  Two spellings of the
    name that lower-case alike do the same. *)
Theorem move_goes_to_first_matching_folder
  (toLower : string -> string) (emailId dest : string) (fs : list folder)
  (moved : graph_result unit) (tok : value) :
  let matches f := String.eqb (toLower (displayName f)) (toLower dest) in
  match find_folder toLower dest fs with
  | Some target =>
      (exists before after,
         fs = (before ++ target :: after)%list
         /\ toLower (displayName target) = toLower dest
         /\ Forall (fun f => matches f = false) before)
      /\ fst (move_email toLower emailId dest (Answer fs) moved tok)
         = [mkRequest GET "/me/mailFolders" tok VUndefined VUndefined;
            mkRequest POST ("/me/messages/" ++ emailId ++ "/move") tok VUndefined
              (VObj [("destinationId", VStr (folder_id target))])]
  | None =>
      Forall (fun f => matches f = false) fs
      /\ move_email toLower emailId dest (Answer fs) moved tok
         = ([mkRequest GET "/me/mailFolders" tok VUndefined VUndefined],
            Raised (Js (Error ("Folder " ++ String dquote dest
                               ++ String dquote " not found"))))
  end
  /\ forall dest', toLower dest' = toLower dest ->
       fst (move_email toLower emailId dest' (Answer fs) moved tok)
       = fst (move_email toLower emailId dest (Answer fs) moved tok).
Proof.
  intros matches. split.
  - unfold move_email.
    pose proof (find_first matches fs) as F. unfold find_folder. fold matches.
    destruct (find matches fs) as [target|].
    + destruct F as [before [after [L [P B]]]].
      split.
      * exists before, after. repeat split; auto.
        unfold matches in P. now apply String.eqb_eq in P.
      * destruct moved; reflexivity.
    + split; auto.
  - intros dest' E. unfold move_email, find_folder. rewrite E.
    destruct (find _ fs); [destruct moved |]; reflexivity.
Qed.

(** *** Sending a message *)

Lemma map_recipient_injective (l l' : list string) :
  map recipient l = map recipient l' -> l = l'.
Proof.
  revert l'. induction l as [|x l IH]; intros [|y l'] H; try discriminate; auto.
  simpl in H. injection H as E T. f_equal; auto.
Qed.

(** X19.  What [outlook_send_email] posts determines the parameters it
    was called with: two calls that differ in the subject, the body, the
    importance, any recipient or its position, or in whether a copy list is
    absent or merely empty, post different messages. *)
Theorem sent_message_keeps_every_parameter
  (subject subject' body body' : string) (imp imp' : importance)
  (to to' : list string) (cc cc' bcc bcc' : option (list string))
  (sent sent' : graph_result unit) (tok tok' : value) :
  fst (send_email to subject body cc bcc imp sent tok)
  = fst (send_email to' subject' body' cc' bcc' imp' sent' tok') ->
  subject = subject' /\ body = body' /\ imp = imp' /\ to = to'
  /\ cc = cc' /\ bcc = bcc' /\ tok = tok'.
Proof.
  intros H.
  assert (M : mkRequest POST "/me/sendMail" tok VUndefined
                (VObj [("message", mail_message subject body imp to cc bcc)])
              = mkRequest POST "/me/sendMail" tok' VUndefined
                  (VObj [("message", mail_message subject' body' imp' to' cc' bcc')])).
  { unfold send_email in H. destruct sent, sent'; cbn [fst] in H; congruence. }
  assert (Et : tok = tok') by congruence.
  assert (Em : mail_message subject body imp to cc bcc
               = mail_message subject' body' imp' to' cc' bcc') by congruence.
  clear M H. subst tok'.
  unfold mail_message, when_present, html_body in Em.
  assert (I : forall i i', importance_name i = importance_name i' -> i = i').
  { intros [] []; simpl; intros E; try discriminate; reflexivity. }
  destruct cc as [c|], cc' as [c'|], bcc as [b|], bcc' as [b'|];
    simpl in Em; try discriminate; injection Em; intros;
    repeat match goal with
           | E : map recipient _ = map recipient _ |- _ =>
               apply map_recipient_injective in E
           | E : importance_name _ = importance_name _ |- _ => apply I in E
           end;
    subst; repeat split; reflexivity.
Qed.

Lemma sent_message_keeps_every_parameter_witness :
  fst (send_email ["a@example.com"] "Hello" "<p>Hi</p>" (Some []) None normal
         (Answer tt) (VStr "A1"))
  = fst (send_email ["a@example.com"] "Hello" "<p>Hi</p>" (Some []) None normal
           (Refusal "503") (VStr "A1"))
  /\ Some (@nil string) = Some [].
Proof.
  split; [reflexivity |].
  apply (sent_message_keeps_every_parameter "Hello" "Hello" "<p>Hi</p>" "<p>Hi</p>"
           normal normal ["a@example.com"] ["a@example.com"] (Some []) (Some [])
           None None (Answer tt) (Refusal "503") (VStr "A1") (VStr "A1")).
  reflexivity.
Defined.

(** *** Tools and the token *)

(** X20.  A tool called while the server holds no usable credential sends
    nothing to Graph and nothing to the identity provider, and fails with
    the authentication error of [getAccessToken]; called while the cached
    token is valid, it sends its requests with that token and without any
    call to the provider. *)
Theorem tools_depend_on_the_token
  (now : Z) (r : response) (w : world)
  (body : value -> list request * tool_outcome) :
  (classify now (tokenCache (loadTokenCache w)) = Some Unauthenticated ->
   snd (authorized now r w body) = ([], Raised (Js no_valid_authentication))
   /\ refresh_calls (fst (authorized now r w body)) = refresh_calls w)
  /\ (classify now (tokenCache (loadTokenCache w)) = Some Authenticated ->
      exists tok,
        get_prop (tokenCache (loadTokenCache w)) "accessToken" = Some tok
        /\ snd (authorized now r w body) = body tok
        /\ refresh_calls (fst (authorized now r w body)) = refresh_calls w).
Proof.
  split; intros H.
  - unfold authorized, getAccessToken.
    rewrite (begin_unauthenticated now w H). simpl.
    split; [reflexivity | apply refresh_calls_load].
  - destruct (authenticated_after_reload now r w H) as [tok [G E]].
    exists tok. unfold authorized. rewrite E. simpl.
    repeat split; auto. apply refresh_calls_load.
Qed.


(** *** The UTC designator *)

Lemma append_empty (s : string) : s ++ EmptyString = s.
Proof. induction s as [|x s IH]; simpl; [reflexivity | now rewrite IH]. Qed.

(** X21.  A trailing [Z] is dropped, not converted: for a time that has a
    [T] and a [-] or [+] and no [Z] of its own, the helper returns the same
    [dateTime] and the same zone whether or not a [Z] is appended to the
    input, so a UTC instant is sent as that wall-clock time in the zone
    chosen. *)
Theorem utc_designator_is_dropped (sys s : string) (tz : option string) :
  includes "T" s = true -> includes "Z" s = false ->
  includes "-" s || includes "+" s = true ->
  formatDateTimeForGraph sys (s ++ "Z") tz = formatDateTimeForGraph sys s tz
  /\ dateTime (formatDateTimeForGraph sys (s ++ "Z") tz) = s.
Proof.
  intros HT HZ HS.
  assert (F : forall x, includes "-" x || includes "+" x = true ->
                negb (includes "Z" x) && negb (includes "+" x)
                && negb (includes "-" x) = false).
  { intros x H. destruct (includes "-" x), (includes "+" x); try discriminate;
      rewrite ?andb_false_r; reflexivity. }
  assert (E1 : formatDateTimeForGraph sys s tz
               = mkGraphTime s (match given tz with
                                | Some z => z
                                | None => sys
                                end)).
  { unfold formatDateTimeForGraph. rewrite HT. simpl negb. cbv iota.
    rewrite (F s HS), (replace_first_absent "Z" s HZ). reflexivity. }
  assert (E2 : formatDateTimeForGraph sys (s ++ "Z") tz
               = mkGraphTime s (match given tz with
                                | Some z => z
                                | None => sys
                                end)).
  { unfold formatDateTimeForGraph.
    rewrite (includes_append "T"), HT. simpl negb. cbv iota.
    rewrite F.
    - rewrite replace_first_append by exact HZ. simpl. now rewrite append_empty.
    - rewrite !includes_append. simpl. rewrite !orb_false_r. exact HS. }
  rewrite E1, E2. split; reflexivity.
Qed.

Lemma utc_designator_is_dropped_witness :
  (includes "T" "2024-01-15T10:00:00" = true
   /\ includes "Z" "2024-01-15T10:00:00" = false
   /\ includes "-" "2024-01-15T10:00:00" || includes "+" "2024-01-15T10:00:00"
      = true)
  /\ formatDateTimeForGraph "Europe/Paris" ("2024-01-15T10:00:00" ++ "Z") None
     = formatDateTimeForGraph "Europe/Paris" "2024-01-15T10:00:00" None.
Proof.
  split; [repeat split; reflexivity |].
  apply (utc_designator_is_dropped "Europe/Paris" "2024-01-15T10:00:00" None);
    reflexivity.
Defined.

End ToolFacts.
